(** * Audio notes front end: the upload / rename / delete / record controller

    A shallow embedding of the view-controller of the audio notes client
    (the [App] component, in its two revisions) and the proofs of the
    properties its specification lists.

    Conventions of the embedding.
    - A JavaScript string is a [string]; each character stands for one
      UTF-16 code unit below 256 (the Latin-1 range).  Case mapping and
      white space are those of ECMAScript restricted to that range.
    - A JavaScript number that holds a byte count is a [JSNumber]: the three
      non-finite values, or an integer.
    - React state is a record; a handler is a program over the effects it
      performs (network requests, object URLs, the clock, the microphone),
      run against an arbitrary environment that answers them. *)

From Stdlib Require Import ZArith NArith List String Ascii Bool Lia.
From Stdlib Require Import DecimalString.
From Stdlib Require DecimalPos.
Import ListNotations.

Local Open Scope list_scope.
Local Open Scope string_scope.

(* ================================================================= *)
(** ** ECMAScript string and number primitives used by the component *)

Module JS.

(** Code unit of a character. *)
Definition code (c : ascii) : N := N_of_ascii c.

(** [String.prototype.toLowerCase] on one code unit below 256: the
    letters A-Z, and the Latin-1 capitals U+00C0-U+00DE except the
    multiplication sign U+00D7, move up by 32. *)
Definition lowerChar (c : ascii) : ascii :=
  let n := code c in
  if ((65 <=? n) && (n <=? 90))%N
     || ((192 <=? n) && (n <=? 214))%N
     || ((216 <=? n) && (n <=? 222))%N
  then ascii_of_N (n + 32)
  else c.

Fixpoint toLowerCase (s : string) : string :=
  match s with
  | EmptyString => EmptyString
  | String c s' => String (lowerChar c) (toLowerCase s')
  end.

(** [s.startsWith(p)] *)
Fixpoint startsWith (p s : string) : bool :=
  match p, s with
  | EmptyString, _ => true
  | String _ _, EmptyString => false
  | String a p', String b s' => Ascii.eqb a b && startsWith p' s'
  end.

(** [s.includes(sub)] *)
Fixpoint includes (sub s : string) : bool :=
  startsWith sub s ||
  match s with
  | EmptyString => false
  | String _ s' => includes sub s'
  end.

(** [s.split(sep)] for a one-character separator. *)
Fixpoint split (sep : ascii) (s : string) : list string :=
  match s with
  | EmptyString => [EmptyString]
  | String c s' =>
      if Ascii.eqb c sep then EmptyString :: split sep s'
      else match split sep s' with
           | [] => [String c EmptyString]
           | piece :: rest => String c piece :: rest
           end
  end.

(** White space and line terminators of ECMAScript below 256:
    TAB, LF, VT, FF, CR, SPACE and NO-BREAK SPACE. *)
Definition isWhiteSpace (c : ascii) : bool :=
  let n := code c in
  ((9 <=? n) && (n <=? 13))%N || (n =? 32)%N || (n =? 160)%N.

Fixpoint trimStart (s : string) : string :=
  match s with
  | EmptyString => EmptyString
  | String c s' => if isWhiteSpace c then trimStart s' else s
  end.

(** Drops the trailing white space: a character is kept when it is not
    white space or when something is kept after it. *)
Fixpoint trimEnd (s : string) : string :=
  match s with
  | EmptyString => EmptyString
  | String c s' =>
      match trimEnd s' with
      | EmptyString => if isWhiteSpace c then EmptyString
                       else String c EmptyString
      | kept => String c kept
      end
  end.

(** [s.trim()] *)
Definition trim (s : string) : string := trimEnd (trimStart s).

(** Truthiness of a string: the empty string is falsy. *)
Definition truthy (s : string) : bool :=
  match s with EmptyString => false | String _ _ => true end.

(** [a || b] on strings. *)
Definition orElse (a b : string) : string := if truthy a then a else b.

(** [o || b] where [o] may be [undefined] or [null]. *)
Definition orDefault (o : option string) (b : string) : string :=
  match o with
  | Some a => orElse a b
  | None => b
  end.

(** Decimal rendering of a non-negative integer, as a template literal
    renders an integral number. *)
Definition showN (n : N) : string := NilEmpty.string_of_uint (N.to_uint n).

Definition showZ (z : Z) : string :=
  match z with
  | Zneg p => "-" ++ showN (Npos p)
  | _ => showN (Z.to_N z)
  end.

(** A number holding a byte count. *)
Inductive JSNumber : Type :=
| NaN
| PosInfinity
| NegInfinity
| Int (z : Z).

(** [Number.isFinite] *)
Definition isFinite (x : JSNumber) : bool :=
  match x with Int _ => true | _ => false end.

(** [x <= 0]; every comparison with NaN is false. *)
Definition leZero (x : JSNumber) : bool :=
  match x with
  | NaN => false
  | PosInfinity => false
  | NegInfinity => true
  | Int z => (z <=? 0)%Z
  end.

(** [(num / den).toFixed(f)] for [f] in {0, 1}, a positive denominator and
    a non-negative numerator: the integer [n] closest to
    [num / den * 10^f], the larger one on a tie, printed with [f]
    decimals.  The quotients the component forms divide an integer by a
    power of two, which is exact in binary floating point, so the rounding
    is that of the exact value. *)
Definition toFixed (num den : Z) (f : nat) : string :=
  let scale := (10 ^ Z.of_nat f)%Z in
  let n := ((2 * num * scale + den) / (2 * den))%Z in
  match f with
  | O => showZ n
  | S _ => showZ (n / scale) ++ "." ++ showZ (n mod scale)
  end.

End JS.

(* ================================================================= *)
(** ** Data model, platform objects and effects *)

(** The [UploadItem] type of the component: a record mirrored from the
    backend. *)
Record UploadItem : Type := {
  _id : string;
  originalName : string;
  mimeType : string;
  size : Z;
  storageFilename : string;
  transcription : option string;
  createdAt : string;
  url : string
}.

(** [{ ...u, originalName: v }] *)
Definition withOriginalName (v : string) (u : UploadItem) : UploadItem :=
  {| _id := _id u;
     originalName := v;
     mimeType := mimeType u;
     size := size u;
     storageFilename := storageFilename u;
     transcription := transcription u;
     createdAt := createdAt u;
     url := url u |}.

(** A [Blob]: its media type and its length in bytes. *)
Record Blob : Type := {
  blobType : string;
  blobSize : N
}.

(** A [File] object.  [fileRef] is the identity of the object, which is
    what [===] compares. *)
Record File : Type := {
  fileRef : N;
  fileName : string;
  fileType : string;
  fileSize : N
}.

(** The File API stores the [type] option of the [Blob] and [File]
    constructors in ASCII lower case, and as the empty string when it has
    a character outside U+0020 to U+007E. *)
Definition printable (c : ascii) : bool :=
  let n := JS.code c in ((32 <=? n) && (n <=? 126))%N.

Definition normalizeType (t : string) : string :=
  if forallb printable (list_ascii_of_string t) then JS.toLowerCase t
  else "".

(** [new Blob(parts, { type })] *)
Definition newBlob (parts : list Blob) (type : string) : Blob :=
  {| blobType := normalizeType type;
     blobSize := fold_right (fun p acc => (blobSize p + acc)%N) 0%N parts |}.

(** What a [catch] clause receives: an [Error] with its message, or any
    other value. *)
Inductive Thrown : Type :=
| ErrorObject (message : string)
| NotAnError.

(** [e instanceof Error ? e.message : fallback] *)
Definition messageOf (e : Thrown) (fallback : string) : string :=
  match e with
  | ErrorObject m => m
  | NotAnError => fallback
  end.

(** The parsed body of a response, seen through the two type assertions
    the component applies to it: [as { error?: string }] reads
    [body_error], [as UploadItem[]] reads [body_items]. *)
Record JsonValue : Type := {
  body_error : option string;
  body_items : list UploadItem
}.

(** The empty object [{}]. *)
Definition emptyObject : JsonValue :=
  {| body_error := None; body_items := [] |}.

(** Outcome of [res.json()]. *)
Inductive JsonResult : Type :=
| JsonRejects (e : Thrown)
| JsonResolves (v : JsonValue).

Record Response : Type := {
  status : N;
  json : JsonResult
}.

(** [res.ok]: the status is in the range 200 to 299. *)
Definition ok (res : Response) : bool :=
  ((200 <=? status res) && (status res <=? 299))%N.

(** [await res.json().catch(() => ({}))] *)
Definition jsonOrEmpty (res : Response) : JsonValue :=
  match json res with
  | JsonRejects _ => emptyObject
  | JsonResolves v => v
  end.

(** Outcome of [await fetch(...)]. *)
Inductive FetchResult : Type :=
| Rejected (e : Thrown)
| Responded (res : Response).

Inductive Method : Type := GET | POST | PATCH | DELETE.

Inductive RequestBody : Type :=
| NoBody
| FormData (field : string) (file : File)
| JsonOriginalName (name : string).

Record Request : Type := {
  method : Method;
  target : string;
  headers : list (string * string);
  body : RequestBody
}.

Record MediaStream : Type := {
  tracks : list N
}.

(** The [MediaRecorder] the component creates, with what its [onstop]
    handler closes over: the [recordingUrl] of the render that started
    the recording. *)
Record MediaRecorder : Type := {
  recorderMimeType : string;
  capturedRecordingUrl : option string
}.

Inductive RecordingState : Type := Inactive | Recording | Paused.

(** The effects a handler performs, indexed by the type of their answer. *)
Inductive Effect : Type -> Type :=
| Fetch (req : Request) : Effect FetchResult
| RevokeObjectURL (u : string) : Effect unit
| CreateObjectURL (b : Blob) : Effect string
| DateNow : Effect N
| NewObject : Effect N
| HasMediaRecorder : Effect bool
| GetUserMedia : Effect (Thrown + MediaStream)
| NewMediaRecorder (stream : MediaStream) : Effect (Thrown + string)
| RecorderStart : Effect (option Thrown)
| RecorderState : Effect RecordingState
| RecorderStop : Effect unit
| StopTrack (t : N) : Effect unit.

(** A handler: a finite tree of effects ending in a result. *)
Inductive Prog (A : Type) : Type :=
| Ret (a : A)
| Vis (X : Type) (e : Effect X) (k : X -> Prog A).

Arguments Ret {A} a.
Arguments Vis {A X} e k.

Fixpoint bind {A B : Type} (p : Prog A) (f : A -> Prog B) : Prog B :=
  match p with
  | Ret a => f a
  | Vis e k => Vis e (fun x => bind (k x) f)
  end.

Definition perform {X : Type} (e : Effect X) : Prog X := Vis e Ret.

Declare Scope prog_scope.
Delimit Scope prog_scope with prog.
Notation "x <- p ;; q" := (bind p (fun x => q))
  (at level 61, p at next level, right associativity) : prog_scope.
Notation "p ;; q" := (bind p (fun _ => q))
  (at level 61, right associativity) : prog_scope.
Local Open Scope prog_scope.

(** An effect that was performed, with the answer it got. *)
Inductive Event : Type :=
| Performed (X : Type) (e : Effect X) (answer : X).

Arguments Performed {X} e answer.

(** The environment answers an effect knowing what happened before. *)
Definition Env : Type := forall X : Type, list Event -> Effect X -> X.

(** Runs a handler to completion: its result and the effects performed,
    appended to the history [past]. *)
Fixpoint run {A : Type} (env : Env) (past : list Event) (p : Prog A)
  : A * list Event :=
  match p with
  | Ret a => (a, past)
  | Vis e k =>
      let x := env _ past e in
      run env (past ++ [Performed e x]) (k x)
  end.

(** The network requests of a trace, in order. *)
Fixpoint requests (tr : list Event) : list Request :=
  match tr with
  | [] => []
  | Performed e _ :: rest =>
      match e with
      | Fetch req => req :: requests rest
      | _ => requests rest
      end
  end.

(** The React state of the component: one field per [useState] and
    [useRef]. *)
Record State : Type := {
  uploads : list UploadItem;
  isLoadingList : bool;
  isUploading : bool;
  error : option string;
  isRecording : bool;
  recordingUrl : option string;
  recordedFile : option File;
  deletingId : option string;
  editingId : option string;
  editingName : string;
  mediaRecorderRef : option MediaRecorder;
  chunksRef : list Blob;
  streamRef : option MediaStream
}.

Definition initialState : State :=
  {| uploads := []; isLoadingList := true; isUploading := false;
     error := None; isRecording := false; recordingUrl := None;
     recordedFile := None; deletingId := None; editingId := None;
     editingName := ""; mediaRecorderRef := None; chunksRef := [];
     streamRef := None |}.

Definition setUploads (v : list UploadItem) (s : State) : State :=
  let (_, b, c, d, e, f, g, h, i, j, k, l, m) := s in
  Build_State v b c d e f g h i j k l m.
Definition setIsLoadingList (v : bool) (s : State) : State :=
  let (a, _, c, d, e, f, g, h, i, j, k, l, m) := s in
  Build_State a v c d e f g h i j k l m.
Definition setIsUploading (v : bool) (s : State) : State :=
  let (a, b, _, d, e, f, g, h, i, j, k, l, m) := s in
  Build_State a b v d e f g h i j k l m.
Definition setError (v : option string) (s : State) : State :=
  let (a, b, c, _, e, f, g, h, i, j, k, l, m) := s in
  Build_State a b c v e f g h i j k l m.
Definition setIsRecording (v : bool) (s : State) : State :=
  let (a, b, c, d, _, f, g, h, i, j, k, l, m) := s in
  Build_State a b c d v f g h i j k l m.
Definition setRecordingUrl (v : option string) (s : State) : State :=
  let (a, b, c, d, e, _, g, h, i, j, k, l, m) := s in
  Build_State a b c d e v g h i j k l m.
Definition setRecordedFile (v : option File) (s : State) : State :=
  let (a, b, c, d, e, f, _, h, i, j, k, l, m) := s in
  Build_State a b c d e f v h i j k l m.
Definition setDeletingId (v : option string) (s : State) : State :=
  let (a, b, c, d, e, f, g, _, i, j, k, l, m) := s in
  Build_State a b c d e f g v i j k l m.
Definition setEditingId (v : option string) (s : State) : State :=
  let (a, b, c, d, e, f, g, h, _, j, k, l, m) := s in
  Build_State a b c d e f g h v j k l m.
Definition setEditingName (v : string) (s : State) : State :=
  let (a, b, c, d, e, f, g, h, i, _, k, l, m) := s in
  Build_State a b c d e f g h i v k l m.
Definition setMediaRecorderRef (v : option MediaRecorder) (s : State) : State :=
  let (a, b, c, d, e, f, g, h, i, j, _, l, m) := s in
  Build_State a b c d e f g h i j v l m.
Definition setChunksRef (v : list Blob) (s : State) : State :=
  let (a, b, c, d, e, f, g, h, i, j, k, _, m) := s in
  Build_State a b c d e f g h i j k v m.
Definition setStreamRef (v : option MediaStream) (s : State) : State :=
  let (a, b, c, d, e, f, g, h, i, j, k, l, _) := s in
  Build_State a b c d e f g h i j k l v.

(** [if (u) ...] on a [string | null]: the value when it is truthy. *)
Definition whenTruthy (o : option string) : option string :=
  match o with
  | Some u => if JS.truthy u then Some u else None
  | None => None
  end.

(** [if (u) URL.revokeObjectURL(u)] *)
Definition revokeIfSet (o : option string) : Prog unit :=
  match whenTruthy o with
  | Some u => perform (RevokeObjectURL u)
  | None => Ret tt
  end.

(** [stream.getTracks().forEach((t) => t.stop())] *)
Fixpoint stopTracks (ts : list N) : Prog unit :=
  match ts with
  | [] => Ret tt
  | t :: rest => perform (StopTrack t) ;; stopTracks rest
  end.

(** [try { ... } catch (e) { ... }]: the block either completes with a
    state or throws; the handler turns what was thrown into a state. *)
Definition tryCatch (attempt : State + Thrown) (handler : Thrown -> State)
  : State :=
  match attempt with
  | inl s => s
  | inr e => handler e
  end.

(** [throw new Error(message)] *)
Definition throwError (message : string) : State + Thrown :=
  inr (ErrorObject message).

(** [s.replace(/\/$/, '')]: drops one slash at the very end. *)
Fixpoint stripTrailingSlash (s : string) : string :=
  match s with
  | EmptyString => EmptyString
  | String c EmptyString => if Ascii.eqb c "/" then EmptyString else s
  | String c s' => String c (stripTrailingSlash s')
  end.

(* ================================================================= *)
(** ** The component, current revision *)

Module App.

Definition ALLOWED_AUDIO_TYPES : list string :=
  [ "audio/webm"; "audio/mp3"; "audio/mpeg"; "audio/wav";
    "audio/ogg"; "audio/mp4"; "audio/x-wav"; "audio/flac" ].

Definition MAX_FILE_SIZE_MB : N := 25.
Definition MAX_FILE_SIZE_BYTES : N := MAX_FILE_SIZE_MB * 1024 * 1024.

(** [formatBytes].  [Math.floor(Math.log(bytes) / Math.log(1024))] is
    taken as the exact integer logarithm in base 1024. *)
Definition formatBytes (bytes : JS.JSNumber) : string :=
  if negb (JS.isFinite bytes) || JS.leZero bytes then "0 B"
  else
    match bytes with
    | JS.Int z =>
        let units := ["B"; "KB"; "MB"; "GB"] in
        let idx := Z.min (Z.log2 z / 10) (Z.of_nat (List.length units) - 1) in
        let digits := if (idx =? 0)%Z then 0%nat else 1%nat in
        JS.toFixed z (1024 ^ idx) digits
          ++ " " ++ nth (Z.to_nat idx) units "undefined"
    | _ => "0 B"
    end.

(** The result of the validator: [{ ok: true }] or
    [{ ok: false, message }]. *)
Inductive Validation : Type :=
| Valid
| Invalid (message : string).

(** [t.split('/')[1]]; a missing element is [undefined], which
    [includes] searches for as the text "undefined". *)
Definition subtypeOf (t : string) : string :=
  nth 1 (JS.split "/" t) "undefined".

Definition typeMessage (file : File) : string :=
  "Invalid file type: " ++ JS.orElse (fileType file) "unknown"
    ++ ". Use audio files (e.g. MP3, WAV, WebM).".

Definition sizeMessage : string :=
  "File too large. Max " ++ JS.showN MAX_FILE_SIZE_MB ++ " MB.".

(** The [isAllowed] constant of the validator, as a function of the
    lower-cased type. *)
Definition isAllowed (type : string) : bool :=
  JS.startsWith "audio/" type
  || existsb (fun t => JS.includes (subtypeOf t) type) ALLOWED_AUDIO_TYPES.

Definition isValidAudioFile (file : File) : Validation :=
  let type := JS.orElse (JS.toLowerCase (fileType file)) "" in
  if negb (isAllowed type) then Invalid (typeMessage file)
  else if (MAX_FILE_SIZE_BYTES <? fileSize file)%N then Invalid sizeMessage
  else Valid.

Section Component.

(** [import.meta.env.VITE_API_URL] *)
Variable VITE_API_URL : option string.

Definition API_BASE : string :=
  stripTrailingSlash (JS.orDefault VITE_API_URL "").

Definition listRequest : Request :=
  {| method := GET; target := API_BASE ++ "/api/uploads";
     headers := []; body := NoBody |}.

Definition uploadRequest (file : File) : Request :=
  {| method := POST; target := API_BASE ++ "/api/uploads";
     headers := []; body := FormData "audio" file |}.

Definition renameRequest (id trimmed : string) : Request :=
  {| method := PATCH; target := API_BASE ++ "/api/uploads/" ++ id;
     headers := [("Content-Type", "application/json")];
     body := JsonOriginalName trimmed |}.

Definition deleteRequest (id : string) : Request :=
  {| method := DELETE; target := API_BASE ++ "/api/uploads/" ++ id;
     headers := []; body := NoBody |}.

(** The message of the error thrown on a response that is not [ok]:
    [data?.error || `<what> (${res.status})`]. *)
Definition statusMessage (what : string) (res : Response) : string :=
  what ++ " (" ++ JS.showN (status res) ++ ")".

Definition responseMessage (what : string) (res : Response) : string :=
  JS.orDefault (body_error (jsonOrEmpty res)) (statusMessage what res).

Definition fetchUploads (s : State) : Prog State :=
  let s1 := setError None (setIsLoadingList true s) in
  r <- perform (Fetch listRequest) ;;
  let s2 :=
    tryCatch
      match r with
      | Rejected e => inr e
      | Responded res =>
          if negb (ok res) then
            throwError (responseMessage "Failed to fetch" res)
          else
            match json res with
            | JsonRejects e => inr e
            | JsonResolves data => inl (setUploads (body_items data) s1)
            end
      end
      (fun e => setError (Some (messageOf e "Failed to fetch uploads")) s1) in
  Ret (setIsLoadingList false s2).

(** [file === recordedFile] with [recordedFile] not null. *)
Definition isRecordedFile (file : File) (recorded : option File) : bool :=
  match recorded with
  | Some f => (fileRef file =? fileRef f)%N
  | None => false
  end.

(** [uploadFile].  [recordedFile] and [recordingUrl] are those of the
    render in which the handler was created, that is of [s]. *)
Definition uploadFile (file : File) (s : State) : Prog State :=
  match isValidAudioFile file with
  | Invalid message => Ret (setError (Some message) s)
  | Valid =>
      let s1 := setError None (setIsUploading true s) in
      let handler e := setError (Some (messageOf e "Upload failed")) s1 in
      r <- perform (Fetch (uploadRequest file)) ;;
      s4 <-
        match r with
        | Rejected e => Ret (handler e)
        | Responded res =>
            if negb (ok res) then
              Ret (tryCatch (throwError (responseMessage "Upload failed" res))
                            handler)
            else
              s2 <- fetchUploads s1 ;;
              if isRecordedFile file (recordedFile s) then
                revokeIfSet (recordingUrl s) ;;
                Ret (setRecordedFile None (setRecordingUrl None s2))
              else Ret s2
        end ;;
      Ret (setIsUploading false s4)
  end.

Definition updateName (id newName : string) (s : State) : Prog State :=
  let trimmed := JS.trim newName in
  if negb (JS.truthy trimmed) then Ret s
  else
    let s1 := setError None s in
    r <- perform (Fetch (renameRequest id trimmed)) ;;
    Ret
      (tryCatch
         match r with
         | Rejected e => inr e
         | Responded res =>
             if negb (ok res) then
               throwError (responseMessage "Update failed" res)
             else
               inl (setEditingName ""
                     (setEditingId None
                       (setUploads
                          (map (fun u =>
                                  if String.eqb (_id u) id
                                  then withOriginalName trimmed u
                                  else u)
                               (uploads s1))
                          s1)))
         end
         (fun e => setError (Some (messageOf e "Failed to update name")) s1)).

Definition startEdit (u : UploadItem) (s : State) : State :=
  setEditingName (originalName u) (setEditingId (Some (_id u)) s).

Definition cancelEdit (s : State) : State :=
  setEditingName "" (setEditingId None s).

Definition deleteUpload (id : string) (s : State) : Prog State :=
  let s1 := setError None (setDeletingId (Some id) s) in
  r <- perform (Fetch (deleteRequest id)) ;;
  let s2 :=
    tryCatch
      match r with
      | Rejected e => inr e
      | Responded res =>
          if negb (ok res) then
            throwError (responseMessage "Delete failed" res)
          else
            inl (setUploads
                   (filter (fun u => negb (String.eqb (_id u) id)) (uploads s1))
                   s1)
      end
      (fun e => setError (Some (messageOf e "Failed to delete")) s1) in
  Ret (setDeletingId None s2).

End Component.

(** The extension the [onstop] handler derives from the type of the
    finalized blob. *)
Definition extensionOf (type : string) : string :=
  if JS.includes "ogg" type then "ogg"
  else if JS.includes "wav" type then "wav"
  else "webm".

(** [new File([blob], name, { type: blob.type })], the new object being
    [ref]. *)
Definition newFile (ref : N) (blob : Blob) (name : string) : File :=
  {| fileRef := ref; fileName := name;
     fileType := normalizeType (blobType blob);
     fileSize := blobSize blob |}.

Definition micMessage (e : Thrown) : string :=
  messageOf e "Could not access microphone.".

Definition startRecording (s : State) : Prog State :=
  let s1 := setRecordedFile None (setError None s) in
  revokeIfSet (recordingUrl s) ;;
  let s2 := setRecordingUrl None s1 in
  supported <- perform HasMediaRecorder ;;
  if negb supported then
    Ret (setError (Some "Recording not supported. Try Chrome or Firefox.") s2)
  else
    got <- perform GetUserMedia ;;
    match got with
    | inl e => Ret (setError (Some (micMessage e)) s2)
    | inr stream =>
        let s3 := setChunksRef [] (setStreamRef (Some stream) s2) in
        made <- perform (NewMediaRecorder stream) ;;
        match made with
        | inl e => Ret (setError (Some (micMessage e)) s3)
        | inr mime =>
            let recorder :=
              {| recorderMimeType := mime;
                 capturedRecordingUrl := recordingUrl s |} in
            let s4 := setMediaRecorderRef (Some recorder) s3 in
            started <- perform RecorderStart ;;
            match started with
            | Some e => Ret (setError (Some (micMessage e)) s4)
            | None => Ret (setIsRecording true s4)
            end
        end
    end.

(** [recorder.ondataavailable]: a chunk of non-zero size is pushed. *)
Definition ondataavailable (data : Blob) (s : State) : State :=
  if (blobSize data =? 0)%N then s
  else setChunksRef (chunksRef s ++ [data])%list s.

(** [recorder.onstop] *)
Definition onstop (recorder : MediaRecorder) (s : State) : Prog State :=
  let blob :=
    newBlob (chunksRef s) (JS.orElse (recorderMimeType recorder) "audio/webm") in
  revokeIfSet (capturedRecordingUrl recorder) ;;
  u <- perform (CreateObjectURL blob) ;;
  let s1 := setRecordingUrl (Some u) s in
  let ext := extensionOf (blobType blob) in
  now <- perform DateNow ;;
  ref <- perform NewObject ;;
  Ret (setRecordedFile
         (Some (newFile ref blob ("recording-" ++ JS.showN now ++ "." ++ ext)))
         s1).

Definition stopRecording (s : State) : Prog State :=
  match mediaRecorderRef s with
  | Some _ =>
      st <- perform RecorderState ;;
      match st with
      | Inactive => Ret tt
      | _ => perform RecorderStop
      end
  | None => Ret tt
  end ;;
  let s1 := setIsRecording false s in
  match streamRef s with
  | Some stream => stopTracks (tracks stream)
  | None => Ret tt
  end ;;
  Ret (setStreamRef None s1).

(** The cleanup of the effect that depends on [recordingUrl]: it runs
    with the [recordingUrl] of the render that installed it and with the
    stream the ref holds when it runs. *)
Definition recordingCleanup (s : State) : Prog unit :=
  revokeIfSet (recordingUrl s) ;;
  match streamRef s with
  | Some stream => stopTracks (tracks stream)
  | None => Ret tt
  end.

(** [canUploadRecorded]: [!!recordedFile && !isUploading] *)
Definition canUploadRecorded (s : State) : bool :=
  match recordedFile s with
  | Some _ => negb (isUploading s)
  | None => false
  end.

(** The characters the pattern [/[^a-z0-9_.-]/gi] leaves alone: the
    ASCII letters of both cases, the digits, and [_], [.], [-]. *)
Definition isSafeChar (c : ascii) : bool :=
  let n := JS.code c in
  ((97 <=? n) && (n <=? 122))%N
  || ((65 <=? n) && (n <=? 90))%N
  || ((48 <=? n) && (n <=? 57))%N
  || (n =? 95)%N || (n =? 46)%N || (n =? 45)%N.

(** [s.replace(/[^a-z0-9_.-]/gi, '_')] *)
Fixpoint replaceUnsafe (s : string) : string :=
  match s with
  | EmptyString => EmptyString
  | String c s' =>
      String (if isSafeChar c then c else "_"%char) (replaceUnsafe s')
  end.

(** The [safeName] and [filename] constants of [saveTranscription]. *)
Definition safeNameOf (u : UploadItem) : string :=
  replaceUnsafe (JS.orElse (originalName u) "transcription").

Definition transcriptionFilename (u : UploadItem) : string :=
  safeNameOf u ++ "-" ++ _id u ++ ".txt".

(** Length in bytes of a text in UTF-8: a code unit below 128 takes one
    byte, one from 128 to 255 takes two. *)
Fixpoint utf8Length (s : string) : N :=
  match s with
  | EmptyString => 0
  | String c s' => ((if (JS.code c <? 128)%N then 1 else 2) + utf8Length s')%N
  end.

(** [new Blob([text], { type })] *)
Definition newTextBlob (text type : string) : Blob :=
  {| blobType := normalizeType type; blobSize := utf8Length text |}.

(** The anchor element [saveTranscription] creates and clicks. *)
Record Anchor : Type := {
  href : string;
  download : string
}.

(** [saveTranscription]: the result is the anchor that was clicked, if
    any; the revocation the timer performs half a second later is the
    last effect.  None of the calls of the [try] block throws here. *)
Definition saveTranscription (u : UploadItem) : Prog (option Anchor) :=
  match whenTruthy (transcription u) with
  | None => Ret None
  | Some text =>
      let filename := transcriptionFilename u in
      let blob := newTextBlob text "text/plain;charset=utf-8" in
      link <- perform (CreateObjectURL blob) ;;
      perform (RevokeObjectURL link) ;;
      Ret (Some {| href := link; download := filename |})
  end.

Section Controls.

Variable VITE_API_URL : option string.

(** [onChange] of the file input: [if (file) void uploadFile(file)] *)
Definition onFileChange (file : option File) (s : State) : Prog State :=
  match file with
  | Some f => uploadFile VITE_API_URL f s
  | None => Ret s
  end.

(** [onClick] of "Upload recording":
    [recordedFile && void uploadFile(recordedFile)] *)
Definition onUploadRecordingClick (s : State) : Prog State :=
  match recordedFile s with
  | Some f => uploadFile VITE_API_URL f s
  | None => Ret s
  end.

(** [onKeyDown] of the rename input of record [u]. *)
Definition onKeyDown (key : string) (u : UploadItem) (s : State)
  : Prog State :=
  s1 <- (if String.eqb key "Enter"
         then updateName VITE_API_URL (_id u) (editingName s) s
         else Ret s) ;;
  if String.eqb key "Escape" then Ret (cancelEdit s1) else Ret s1.

(** [onBlur] of the rename input of record [u]. *)
Definition onBlur (u : UploadItem) (s : State) : Prog State :=
  if JS.truthy (JS.trim (editingName s))
  then updateName VITE_API_URL (_id u) (editingName s) s
  else Ret (cancelEdit s).

(** [onClick] of the "Save" button of the rename form of record [u]. *)
Definition onSaveClick (u : UploadItem) (s : State) : Prog State :=
  updateName VITE_API_URL (_id u) (editingName s) s.

(** The [src] of the audio element of record [u]:
    [API_BASE ? `${API_BASE}${u.url}` : u.url] *)
Definition audioSrc (u : UploadItem) : string :=
  if JS.truthy (API_BASE VITE_API_URL)
  then API_BASE VITE_API_URL ++ url u
  else url u.

End Controls.

End App.

(* ================================================================= *)
(** ** The component, earlier revision ([src/App.tsx])

    It has no validation, no rename and no delete; it never touches
    [deletingId], [editingId] and [editingName]. *)

Module LegacyApp.

Definition formatBytes (bytes : JS.JSNumber) : string :=
  if negb (JS.isFinite bytes) || JS.leZero bytes then "0 B"
  else
    match bytes with
    | JS.Int z =>
        let units := ["B"; "KB"; "MB"; "GB"] in
        let idx := Z.min (Z.log2 z / 10) (Z.of_nat (List.length units) - 1) in
        let digits := if (idx =? 0)%Z then 0%nat else 1%nat in
        JS.toFixed z (1024 ^ idx) digits
          ++ " " ++ nth (Z.to_nat idx) units "undefined"
    | _ => "0 B"
    end.

Definition listRequest : Request :=
  {| method := GET; target := "/api/uploads"; headers := []; body := NoBody |}.

Definition uploadRequest (file : File) : Request :=
  {| method := POST; target := "/api/uploads";
     headers := []; body := FormData "audio" file |}.

Definition fetchUploads (s : State) : Prog State :=
  let s1 := setError None (setIsLoadingList true s) in
  r <- perform (Fetch listRequest) ;;
  let s2 :=
    tryCatch
      match r with
      | Rejected e => inr e
      | Responded res =>
          if negb (ok res) then
            throwError ("Failed to fetch uploads ("
                          ++ JS.showN (status res) ++ ")")
          else
            match json res with
            | JsonRejects e => inr e
            | JsonResolves data => inl (setUploads (body_items data) s1)
            end
      end
      (fun e => setError (Some (messageOf e "Failed to fetch uploads")) s1) in
  Ret (setIsLoadingList false s2).

(** [body?.error] where [body] is [null] when the response is not JSON. *)
Definition bodyError (res : Response) : option string :=
  match json res with
  | JsonRejects _ => None
  | JsonResolves v => body_error v
  end.

Definition uploadFile (file : File) (s : State) : Prog State :=
  let s1 := setError None (setIsUploading true s) in
  let handler e := setError (Some (messageOf e "Upload failed")) s1 in
  r <- perform (Fetch (uploadRequest file)) ;;
  s2 <-
    match r with
    | Rejected e => Ret (handler e)
    | Responded res =>
        if negb (ok res) then
          Ret (tryCatch
                 (throwError
                    (JS.orDefault (bodyError res)
                       ("Upload failed (" ++ JS.showN (status res) ++ ")")))
                 handler)
        else fetchUploads s1
    end ;;
  Ret (setIsUploading false s2).

Definition extensionOf (type : string) : string :=
  if JS.includes "ogg" type then "ogg"
  else if JS.includes "wav" type then "wav"
  else "webm".

Definition newFile (ref : N) (blob : Blob) (name : string) : File :=
  {| fileRef := ref; fileName := name;
     fileType := normalizeType (blobType blob);
     fileSize := blobSize blob |}.

(** [recorder.ondataavailable] *)
Definition ondataavailable (data : Blob) (s : State) : State :=
  if (0 <? blobSize data)%N then setChunksRef (chunksRef s ++ [data])%list s
  else s.

(** [recorder.onstop] *)
Definition onstop (recorder : MediaRecorder) (s : State) : Prog State :=
  let blob :=
    newBlob (chunksRef s) (JS.orElse (recorderMimeType recorder) "audio/webm") in
  u <- perform (CreateObjectURL blob) ;;
  let s1 := setRecordingUrl (Some u) s in
  let ext := extensionOf (blobType blob) in
  now <- perform DateNow ;;
  ref <- perform NewObject ;;
  Ret (setRecordedFile
         (Some (newFile ref blob ("recording-" ++ JS.showN now ++ "." ++ ext)))
         s1).

End LegacyApp.

(* ================================================================= *)
(** ** A concrete environment *)

(** An environment whose network is [net] and whose other answers are
    fixed; it shows that environments exist and serves to run the
    handlers on examples. *)
Definition envOf (net : list Event -> Request -> FetchResult) : Env :=
  fun X past e =>
    match e in Effect T return T with
    | Fetch req => net past req
    | RevokeObjectURL _ => tt
    | CreateObjectURL _ => "blob:preview"
    | DateNow => 1700000000000%N
    | NewObject => 1%N
    | HasMediaRecorder => true
    | GetUserMedia => inr {| tracks := [0%N] |}
    | NewMediaRecorder _ => inr "audio/webm;codecs=opus"
    | RecorderStart => None
    | RecorderState => Recording
    | RecorderStop => tt
    | StopTrack _ => tt
    end.

(** A backend that is unreachable: every [fetch] rejects the way a
    browser rejects on a network failure. *)
Definition offline : Env :=
  envOf (fun _ _ => Rejected (ErrorObject "Failed to fetch")).

(** A backend that answers every request with the same response. *)
Definition answering (res : Response) : Env :=
  envOf (fun _ _ => Responded res).

Definition okEmpty : Response :=
  {| status := 200; json := JsonResolves emptyObject |}.

(** The operation failed: [fetch] rejected, or the response is not [ok]. *)
Definition failed (r : FetchResult) : bool :=
  match r with
  | Rejected _ => true
  | Responded res => negb (ok res)
  end.

(* ================================================================= *)
(** ** Example data *)

(** Files used as examples. *)
Definition textFile : File :=
  {| fileRef := 7; fileName := "notes.txt";
     fileType := "text/plain"; fileSize := 2048 |}.

Definition bigTextFile : File :=
  {| fileRef := 8; fileName := "dump.txt";
     fileType := "text/plain"; fileSize := 30 * 1024 * 1024 |}.

Definition bigWavFile : File :=
  {| fileRef := 9; fileName := "long.wav";
     fileType := "audio/wav"; fileSize := 30 * 1024 * 1024 |}.

Definition videoFile : File :=
  {| fileRef := 10; fileName := "clip.mp4";
     fileType := "video/mp4"; fileSize := 4096 |}.

Definition wavFile : File :=
  {| fileRef := 11; fileName := "test.wav";
     fileType := "audio/wav"; fileSize := 2 * 1024 * 1024 |}.

(** Two records and a state that lists them. *)
Definition memo : UploadItem :=
  {| _id := "65f1"; originalName := "memo.wav"; mimeType := "audio/wav";
     size := 2097152; storageFilename := "1700-memo.wav";
     transcription := None; createdAt := "2024-03-13T10:00:00.000Z";
     url := "/uploads/1700-memo.wav" |}.

Definition talk : UploadItem :=
  {| _id := "65f2"; originalName := "talk.webm"; mimeType := "audio/webm";
     size := 1536; storageFilename := "1701-talk.webm";
     transcription := Some "hello"; createdAt := "2024-03-14T10:00:00.000Z";
     url := "/uploads/1701-talk.webm" |}.

Definition twoUploads : State :=
  setIsLoadingList false (setUploads [memo; talk] initialState).

Definition staleBanner : State := setError (Some "old message") twoUploads.

Definition oneItemResponse : Response :=
  {| status := 200;
     json := JsonResolves {| body_error := None; body_items := [talk] |} |}.

Definition quotaResponse : Response :=
  {| status := 507;
     json := JsonResolves {| body_error := Some "Storage quota exceeded";
                             body_items := [] |} |}.

Definition emptyErrorResponse : Response :=
  {| status := 500;
     json := JsonResolves {| body_error := Some ""; body_items := [] |} |}.

Definition htmlErrorResponse : Response :=
  {| status := 502;
     json := JsonRejects (ErrorObject "Unexpected token < in JSON") |}.

(* ================================================================= *)
(** ** Definitions used to state the properties *)

(** The patch [updateName] applies to each record of the list. *)
Definition renamed (id trimmed : string) (u : UploadItem) : UploadItem :=
  if String.eqb (_id u) id then withOriginalName trimmed u else u.

(** The error text of the backend: the [error] field of a body that
    parses, when it is not empty. *)
Definition backendText (res : Response) : option string :=
  match json res with
  | JsonRejects _ => None
  | JsonResolves v =>
      match body_error v with
      | Some t => if JS.truthy t then Some t else None
      | None => None
      end
  end.

(** The banner after a failed operation: what was thrown when [fetch]
    rejected (or the fallback of the operation when that is not an
    [Error]); on a response that is not [ok], the text of the backend, or
    "<generic> (<status>)" without one. *)
Definition failureBanner (generic fallback : string) (r : FetchResult)
  : string :=
  match r with
  | Rejected e => messageOf e fallback
  | Responded res =>
      match backendText res with
      | Some t => t
      | None => generic ++ " (" ++ JS.showN (status res) ++ ")"
      end
  end.

(** The type of the blob the [onstop] handler finalizes. *)
Definition finalType (recorder : MediaRecorder) (s : State) : string :=
  blobType
    (newBlob (chunksRef s)
             (JS.orElse (recorderMimeType recorder) "audio/webm")).

(** The decimal digits. *)
Definition digits : list ascii :=
  ["0"; "1"; "2"; "3"; "4"; "5"; "6"; "7"; "8"; "9"]%char.

Ltac state_eq s := destruct s; reflexivity.

(* ================================================================= *)
(** ** Definitions used to state the further properties *)

(** The total size of a sequence of chunks. *)
Definition totalSize (chunks : list Blob) : N :=
  fold_right (fun p acc => (blobSize p + acc)%N) 0%N chunks.

(** The chunks of a sequence the recorder keeps. *)
Definition keptChunks (datas : list Blob) : list Blob :=
  filter (fun d => negb (blobSize d =? 0)%N) datas.

(** The state after the [dataavailable] events [datas], in order. *)
Definition feed (datas : list Blob) (s : State) : State :=
  fold_left (fun acc d => App.ondataavailable d acc) datas s.

Definition legacyFeed (datas : list Blob) (s : State) : State :=
  fold_left (fun acc d => LegacyApp.ondataavailable d acc) datas s.

(** The tracks a trace stops, the object URLs it revokes, and whether it
    asks for the microphone or stops the recorder. *)
Fixpoint stoppedTracks (tr : list Event) : list N :=
  match tr with
  | [] => []
  | Performed e _ :: rest =>
      match e with
      | StopTrack t => t :: stoppedTracks rest
      | _ => stoppedTracks rest
      end
  end.

Fixpoint revokedUrls (tr : list Event) : list string :=
  match tr with
  | [] => []
  | Performed e _ :: rest =>
      match e with
      | RevokeObjectURL u => u :: revokedUrls rest
      | _ => revokedUrls rest
      end
  end.

Fixpoint asksMicrophone (tr : list Event) : bool :=
  match tr with
  | [] => false
  | Performed e _ :: rest =>
      match e with
      | GetUserMedia => true
      | _ => asksMicrophone rest
      end
  end.

Fixpoint stopsRecorder (tr : list Event) : bool :=
  match tr with
  | [] => false
  | Performed e _ :: rest =>
      match e with
      | RecorderStop => true
      | _ => stopsRecorder rest
      end
  end.

(** The last character of a text is not a slash. *)
Fixpoint noTrailingSlash (s : string) : bool :=
  match s with
  | EmptyString => true
  | String c EmptyString => negb (Ascii.eqb c "/")
  | String _ s' => noTrailingSlash s'
  end.

(** A handler with no [fetch] anywhere in it. *)
Fixpoint noFetch {A : Type} (p : Prog A) : Prop :=
  match p with
  | Ret _ => True
  | Vis e k =>
      match e with
      | Fetch _ => False
      | _ => True
      end
      /\ forall x, noFetch (k x)
  end.

(** An environment for the recorder: whether [MediaRecorder] exists,
    what [getUserMedia], the constructor and [start] answer, and the
    state the recorder reports; the network is unreachable. *)
Definition recorderEnv (supported : bool) (mic : Thrown + MediaStream)
           (made : Thrown + string) (started : option Thrown)
           (st : RecordingState) : Env :=
  fun X past e =>
    match e in Effect T return T with
    | Fetch _ => Rejected (ErrorObject "Failed to fetch")
    | RevokeObjectURL _ => tt
    | CreateObjectURL _ => "blob:preview"
    | DateNow => 1700000000000%N
    | NewObject => 1%N
    | HasMediaRecorder => supported
    | GetUserMedia => mic
    | NewMediaRecorder _ => made
    | RecorderStart => started
    | RecorderState => st
    | RecorderStop => tt
    | StopTrack _ => tt
    end.

Definition micStream : MediaStream := {| tracks := [3; 4]%N |}.

Definition previewState : State :=
  setRecordedFile (Some wavFile) (setRecordingUrl (Some "blob:old") twoUploads).

Definition recordingState : State :=
  setIsRecording true
    (setMediaRecorderRef
       (Some {| recorderMimeType := "audio/webm;codecs=opus";
                capturedRecordingUrl := None |})
       (setStreamRef (Some micStream) twoUploads)).

Definition chunkA : Blob := {| blobType := "audio/webm"; blobSize := 300 |}.
Definition chunkB : Blob := {| blobType := "audio/webm"; blobSize := 0 |}.
Definition chunkC : Blob := {| blobType := "audio/webm"; blobSize := 212 |}.

(* ================================================================= *)
(** ** Lemmas on the primitives *)

Lemma orElse_empty (a : string) : JS.orElse a "" = a.
Proof. destruct a; reflexivity. Qed.

Lemma truthy_nonempty (a : string) : a <> "" -> JS.truthy a = true.
Proof. destruct a; [congruence | reflexivity]. Qed.

(** The primitives on concrete inputs. *)
Example trim_examples :
  JS.trim "  demo take 2  " = "demo take 2"
  /\ JS.trim "   " = ""
  /\ JS.trim "" = "".
Proof. repeat split. Qed.

Example split_examples :
  JS.split "/" "audio/x-wav" = ["audio"; "x-wav"]
  /\ JS.split "/" "audio" = ["audio"]
  /\ JS.split "/" "a/" = ["a"; ""].
Proof. repeat split. Qed.

Example toLowerCase_example :
  JS.toLowerCase "Audio/X-WAV; Codecs=1" = "audio/x-wav; codecs=1".
Proof. reflexivity. Qed.

Example formatBytes_steps :
  map (fun z => App.formatBytes (JS.Int z))
      [1; 1023; 1024; 1536; 2097152; 26214400; 1073741824]%Z
  = ["1 B"; "1023 B"; "1.0 KB"; "1.5 KB"; "2.0 MB"; "25.0 MB"; "1.0 GB"].
Proof. reflexivity. Qed.

Example validator_examples :
  App.isValidAudioFile wavFile = App.Valid
  /\ App.isValidAudioFile bigWavFile = App.Invalid "File too large. Max 25 MB."
  /\ App.isValidAudioFile textFile
     = App.Invalid
         "Invalid file type: text/plain. Use audio files (e.g. MP3, WAV, WebM).".
Proof. repeat split. Qed.

(** The scenario of the specification: a 2 MB "audio/wav" file named
    "test.wav" is valid, is posted, and the list is fetched again. *)
Example upload_scenario :
  run (answering oneItemResponse) [] (App.uploadFile None wavFile initialState)
  = (setIsLoadingList false (setUploads [talk] initialState),
     [Performed (Fetch (App.uploadRequest None wavFile))
                (Responded oneItemResponse);
      Performed (Fetch (App.listRequest None)) (Responded oneItemResponse)]).
Proof. reflexivity. Qed.

Lemma trimStart_blank (s : string) :
  forallb JS.isWhiteSpace (list_ascii_of_string s) = true ->
  JS.trimStart s = "".
Proof.
  induction s as [|c s IH]; simpl; intro H.
  - reflexivity.
  - apply andb_true_iff in H as [Hc Hs]. rewrite Hc. exact (IH Hs).
Qed.

Lemma trim_blank (s : string) :
  forallb JS.isWhiteSpace (list_ascii_of_string s) = true ->
  JS.trim s = "".
Proof.
  intro H. unfold JS.trim. rewrite (trimStart_blank s H). reflexivity.
Qed.

Lemma existsb_all_false {A : Type} (f : A -> bool) (l : list A) :
  (forall x, In x l -> f x = false) -> existsb f l = false.
Proof.
  intro H. destruct (existsb f l) eqn:E; [|reflexivity].
  apply existsb_exists in E as (x & Hin & Hx).
  rewrite (H x Hin) in Hx. discriminate.
Qed.

(** The tokens the validator searches for. *)
Lemma known_tokens :
  map App.subtypeOf App.ALLOWED_AUDIO_TYPES
  = ["webm"; "mp3"; "mpeg"; "wav"; "ogg"; "mp4"; "x-wav"; "flac"].
Proof. reflexivity. Qed.

Lemma isAllowed_false (type : string) :
  JS.startsWith "audio/" type = false ->
  (forall token,
      In token ["webm"; "mp3"; "mpeg"; "wav"; "ogg"; "mp4"; "x-wav"; "flac"] ->
      JS.includes token type = false) ->
  App.isAllowed type = false.
Proof.
  intros Hprefix Htokens. unfold App.isAllowed. rewrite Hprefix, orb_false_l.
  apply existsb_all_false. intros t Hin. apply Htokens.
  rewrite <- known_tokens. apply in_map. exact Hin.
Qed.

Lemma max_file_size_bytes : App.MAX_FILE_SIZE_BYTES = 26214400%N.
Proof. reflexivity. Qed.

Lemma sizeMessage_text : App.sizeMessage = "File too large. Max 25 MB.".
Proof. reflexivity. Qed.

(* ================================================================= *)
(** ** Lemmas on programs, traces and state *)

Lemma requests_app (a b : list Event) :
  requests (a ++ b) = (requests a ++ requests b)%list.
Proof.
  induction a as [|[X e x] a IH]; simpl.
  - reflexivity.
  - destruct e; simpl; rewrite IH; reflexivity.
Qed.

(** A run only ever appends to the history. *)
Lemma run_extends {A : Type} (env : Env) (p : Prog A) :
  forall past, exists more, snd (run env past p) = (past ++ more)%list.
Proof.
  induction p as [a | X e k IH]; intro past; simpl.
  - exists []. rewrite app_nil_r. reflexivity.
  - destruct (IH (env X past e) (past ++ [Performed e (env X past e)])%list)
      as [more Hmore].
    exists (Performed e (env X past e) :: more).
    rewrite Hmore, <- app_assoc. reflexivity.
Qed.

Lemma run_bind {A B : Type} (env : Env) (p : Prog A) (f : A -> Prog B) :
  forall past,
    run env past (bind p f)
    = run env (snd (run env past p)) (f (fst (run env past p))).
Proof.
  induction p as [a | X e k IH]; intro past; simpl.
  - reflexivity.
  - apply IH.
Qed.

(** A handler that starts with a request has it first in its trace. *)
Lemma requests_of_fetch_first {A : Type} (env : Env) (req : Request)
      (k : FetchResult -> Prog A) :
  exists rest, requests (snd (run env [] (Vis (Fetch req) k))) = req :: rest.
Proof.
  simpl.
  destruct (run_extends env (k (env _ [] (Fetch req)))
              [Performed (Fetch req) (env _ [] (Fetch req))]) as [more Hmore].
  exists (requests more). rewrite Hmore, requests_app. reflexivity.
Qed.

Lemma setError_frame (v : option string) (s : State) :
  uploads (setError v s) = uploads s
  /\ isLoadingList (setError v s) = isLoadingList s
  /\ isUploading (setError v s) = isUploading s
  /\ editingId (setError v s) = editingId s
  /\ editingName (setError v s) = editingName s
  /\ error (setError v s) = v.
Proof. destruct s; simpl; repeat split. Qed.

(* ================================================================= *)
(** ** Validation before upload *)

Lemma invalid_upload_is_local (api : option string) (file : File) (s : State)
      (message : string) :
  App.isValidAudioFile file = App.Invalid message ->
  App.uploadFile api file s = Ret (setError (Some message) s).
Proof. intro H. unfold App.uploadFile. rewrite H. reflexivity. Qed.

Lemma disallowed_type_is_invalid (file : File) :
  App.isAllowed (JS.toLowerCase (fileType file)) = false ->
  App.isValidAudioFile file = App.Invalid (App.typeMessage file).
Proof.
  intro H. unfold App.isValidAudioFile. rewrite orElse_empty, H. reflexivity.
Qed.

Lemma oversize_allowed_is_invalid (file : File) :
  App.isAllowed (JS.toLowerCase (fileType file)) = true ->
  (App.MAX_FILE_SIZE_BYTES < fileSize file)%N ->
  App.isValidAudioFile file = App.Invalid App.sizeMessage.
Proof.
  intros H Hsize. unfold App.isValidAudioFile. rewrite orElse_empty, H.
  apply N.ltb_lt in Hsize. simpl negb. cbv iota. rewrite Hsize. reflexivity.
Qed.

Lemma allowed_within_limit_is_valid (file : File) :
  App.isAllowed (JS.toLowerCase (fileType file)) = true ->
  (fileSize file <= App.MAX_FILE_SIZE_BYTES)%N ->
  App.isValidAudioFile file = App.Valid.
Proof.
  intros H Hsize. unfold App.isValidAudioFile. rewrite orElse_empty, H.
  assert (Hn : (App.MAX_FILE_SIZE_BYTES <? fileSize file)%N = false)
    by (apply N.ltb_ge; exact Hsize).
  simpl negb. cbv iota. rewrite Hn. reflexivity.
Qed.

(** A type the File API reports is in lower case already. *)
Lemma reported_type_is_lower_case (t : string) :
  normalizeType t = t -> JS.toLowerCase t = t.
Proof.
  unfold normalizeType.
  destruct (forallb printable (list_ascii_of_string t)).
  - intro H. exact H.
  - intros <-. reflexivity.
Qed.

(** C1.  Take a file whose type is one the File API reports (in its
    normal form: ASCII lower case).  When that reported type neither
    starts with "audio/" nor contains one of the tokens webm, mp3, mpeg,
    wav, ogg, mp4, x-wav, flac, [uploadFile] rejects the file on the
    spot: the banner gets the message naming the type, the handler
    performs no effect at all (so no fetch), and [isUploading] and
    [uploads] keep their values. *)
Theorem upload_rejects_non_audio_type
        (api : option string) (env : Env) (file : File) (s : State) :
  normalizeType (fileType file) = fileType file ->
  JS.startsWith "audio/" (fileType file) = false ->
  (forall token,
      In token ["webm"; "mp3"; "mpeg"; "wav"; "ogg"; "mp4"; "x-wav"; "flac"] ->
      JS.includes token (fileType file) = false) ->
  let result := run env [] (App.uploadFile api file s) in
  error (fst result)
  = Some ("Invalid file type: " ++ JS.orElse (fileType file) "unknown"
            ++ ". Use audio files (e.g. MP3, WAV, WebM).")
  /\ snd result = []
  /\ requests (snd result) = []
  /\ isUploading (fst result) = isUploading s
  /\ uploads (fst result) = uploads s
  /\ fst result = setError (error (fst result)) s.
Proof.
  intros Hreported Hprefix Htokens result.
  assert (Hprog : App.uploadFile api file s
                  = Ret (setError (Some (App.typeMessage file)) s)).
  { apply invalid_upload_is_local, disallowed_type_is_invalid.
    rewrite (reported_type_is_lower_case _ Hreported).
    apply isAllowed_false; assumption. }
  subst result. rewrite Hprog. simpl.
  destruct (setError_frame (Some (App.typeMessage file)) s)
    as (Hu & _ & Hi & _ & _ & He).
  rewrite He. repeat split; assumption.
Qed.

Lemma upload_rejects_non_audio_type_witness :
  let result := run offline [] (App.uploadFile None textFile initialState) in
  error (fst result)
  = Some "Invalid file type: text/plain. Use audio files (e.g. MP3, WAV, WebM)."
  /\ snd result = []
  /\ requests (snd result) = []
  /\ isUploading (fst result) = false
  /\ uploads (fst result) = []
  /\ fst result = setError (error (fst result)) initialState.
Proof.
  apply (upload_rejects_non_audio_type None offline textFile initialState).
  - reflexivity.
  - reflexivity.
  - intros token Hin. simpl in Hin.
    repeat (destruct Hin as [<- | Hin]; [reflexivity|]). contradiction.
Defined.

(** C2, as stated, fails: a file above the ceiling whose type is not
    accepted is rejected with the message about its type, not with the
    message about its size, because the type is checked first. *)
Lemma oversize_text_file_gets_type_message :
  (App.MAX_FILE_SIZE_BYTES < fileSize bigTextFile)%N
  /\ run offline [] (App.uploadFile None bigTextFile initialState)
     = (setError
          (Some "Invalid file type: text/plain. Use audio files (e.g. MP3, WAV, WebM).")
          initialState, [])
  /\ "Invalid file type: text/plain. Use audio files (e.g. MP3, WAV, WebM)."
     <> App.sizeMessage.
Proof.
  split; [reflexivity|]. split; [reflexivity|].
  unfold App.sizeMessage. simpl. discriminate.
Qed.

(** C2, amended.  A file above the ceiling of 25 * 1024 * 1024 bytes is
    rejected by [uploadFile] on the spot, with no effect performed, hence
    no POST.  When its type is accepted the banner is the message about
    the size, "File too large. Max 25 MB."; when its type is not accepted
    the banner is the message about the type. *)
Theorem upload_rejects_oversize
        (api : option string) (env : Env) (file : File) (s : State) :
  (25 * 1024 * 1024 < fileSize file)%N ->
  let result := run env [] (App.uploadFile api file s) in
  snd result = []
  /\ requests (snd result) = []
  /\ fst result
     = setError
         (Some (if App.isAllowed (JS.toLowerCase (fileType file))
                then "File too large. Max 25 MB."
                else "Invalid file type: " ++ JS.orElse (fileType file) "unknown"
                       ++ ". Use audio files (e.g. MP3, WAV, WebM)."))
         s.
Proof.
  intros Hsize result. subst result.
  destruct (App.isAllowed (JS.toLowerCase (fileType file))) eqn:Hallowed.
  - rewrite (invalid_upload_is_local api file s App.sizeMessage).
    + repeat split.
    + apply oversize_allowed_is_invalid; assumption.
  - rewrite (invalid_upload_is_local api file s (App.typeMessage file)).
    + repeat split.
    + apply disallowed_type_is_invalid; assumption.
Qed.

Lemma upload_rejects_oversize_witness :
  let result := run offline [] (App.uploadFile None bigWavFile initialState) in
  snd result = []
  /\ requests (snd result) = []
  /\ fst result = setError (Some "File too large. Max 25 MB.") initialState.
Proof.
  apply (upload_rejects_oversize None offline bigWavFile initialState).
  reflexivity.
Defined.

(* ================================================================= *)
(** ** Rename *)

(** C3.  [updateName] with a name that is empty or made of white space
    only returns at once: the handler performs no effect, so no network
    call, and the state it returns is the state it got, so [uploads], the
    editing state and the banner are unchanged. *)
Theorem rename_blank_is_noop
        (api : option string) (env : Env) (past : list Event)
        (id newName : string) (s : State) :
  forallb JS.isWhiteSpace (list_ascii_of_string newName) = true ->
  App.updateName api id newName s = Ret s
  /\ run env past (App.updateName api id newName s) = (s, past).
Proof.
  intro Hblank.
  assert (Hprog : App.updateName api id newName s = Ret s).
  { unfold App.updateName. rewrite (trim_blank newName Hblank). reflexivity. }
  split; [exact Hprog|]. rewrite Hprog. reflexivity.
Qed.

Lemma rename_blank_is_noop_witness :
  (App.updateName None "65f1" "   " initialState = Ret initialState
   /\ run offline [] (App.updateName None "65f1" "   " initialState)
      = (initialState, []))
  /\ (App.updateName None "65f1" "" initialState = Ret initialState
      /\ run offline [] (App.updateName None "65f1" "" initialState)
         = (initialState, [])).
Proof.
  split.
  - apply (rename_blank_is_noop None offline [] "65f1" "   " initialState).
    reflexivity.
  - apply (rename_blank_is_noop None offline [] "65f1" "" initialState).
    reflexivity.
Defined.

(* ================================================================= *)
(** ** Size formatting *)

(** C7.  In both revisions [formatBytes] gives "0 B" for zero, for NaN and
    the infinities, and for a negative count; 1024 bytes are shown in KB,
    as "1.0 KB", and 1536 bytes as "1.5 KB". *)
Theorem formatBytes_examples :
  (forall x : JS.JSNumber,
      x = JS.Int 0 \/ JS.isFinite x = false
      \/ (exists z, x = JS.Int z /\ (z < 0)%Z) ->
      App.formatBytes x = "0 B" /\ LegacyApp.formatBytes x = "0 B")
  /\ (App.formatBytes (JS.Int 1024) = "1.0 KB"
      /\ LegacyApp.formatBytes (JS.Int 1024) = "1.0 KB")
  /\ (App.formatBytes (JS.Int 1536) = "1.5 KB"
      /\ LegacyApp.formatBytes (JS.Int 1536) = "1.5 KB").
Proof.
  split; [|split; split; reflexivity].
  intros x [-> | [Hinf | (z & -> & Hneg)]].
  - split; reflexivity.
  - destruct x; try discriminate; split; reflexivity.
  - assert (Hle : (z <=? 0)%Z = true) by (apply Z.leb_le; lia).
    unfold App.formatBytes, LegacyApp.formatBytes. simpl. rewrite Hle.
    split; reflexivity.
Qed.

Lemma formatBytes_examples_witness :
  (App.formatBytes (JS.Int (-5)) = "0 B"
   /\ LegacyApp.formatBytes (JS.Int (-5)) = "0 B")
  /\ (App.formatBytes JS.NaN = "0 B" /\ LegacyApp.formatBytes JS.NaN = "0 B").
Proof.
  split.
  - apply (proj1 formatBytes_examples (JS.Int (-5))).
    right. right. exists (-5)%Z. split; [reflexivity | lia].
  - apply (proj1 formatBytes_examples JS.NaN).
    right. left. reflexivity.
Defined.

Lemma uploads_after_rename (l : list UploadItem) (s : State) :
  uploads (setEditingName "" (setEditingId None (setUploads l (setError None s))))
  = l.
Proof. destruct s; reflexivity. Qed.

(** What a successful rename computes. *)
Lemma rename_success_run
      (api : option string) (env : Env) (id newName : string) (s : State)
      (res : Response) :
  JS.trim newName <> "" ->
  env _ [] (Fetch (App.renameRequest api id (JS.trim newName))) = Responded res ->
  ok res = true ->
  run env [] (App.updateName api id newName s)
  = (setEditingName ""
       (setEditingId None
          (setUploads (map (renamed id (JS.trim newName)) (uploads s))
                      (setError None s))),
     [Performed (Fetch (App.renameRequest api id (JS.trim newName)))
                (Responded res)]).
Proof.
  intros Hname Henv Hok. unfold App.updateName.
  rewrite (truthy_nonempty _ Hname). simpl. rewrite Henv. simpl.
  rewrite Hok. simpl. destruct s; reflexivity.
Qed.

(** C4.  After a successful [updateName id newName] (the trimmed name is
    not empty and the PATCH is answered with an [ok] response), the list
    is the old list patched position by position: same length, same
    order; a record whose [_id] is [id] has the trimmed name as its
    [originalName] and all its other fields as before; any other record
    is untouched.  The only request is the PATCH: the list is not
    fetched again. *)
Theorem rename_patches_by_id
        (api : option string) (env : Env) (id newName : string) (s : State)
        (res : Response) :
  JS.trim newName <> "" ->
  env _ [] (Fetch (App.renameRequest api id (JS.trim newName))) = Responded res ->
  ok res = true ->
  let result := run env [] (App.updateName api id newName s) in
  let after := uploads (fst result) in
  List.length after = List.length (uploads s)
  /\ (forall i u,
        nth_error (uploads s) i = Some u ->
        exists u',
          nth_error after i = Some u'
          /\ (_id u = id ->
              originalName u' = JS.trim newName
              /\ _id u' = _id u
              /\ mimeType u' = mimeType u
              /\ size u' = size u
              /\ storageFilename u' = storageFilename u
              /\ transcription u' = transcription u
              /\ createdAt u' = createdAt u
              /\ url u' = url u)
          /\ (_id u <> id -> u' = u))
  /\ requests (snd result) = [App.renameRequest api id (JS.trim newName)].
Proof.
  intros Hname Henv Hok result after. subst after result.
  rewrite (rename_success_run api env id newName s res Hname Henv Hok).
  cbn [fst snd]. rewrite uploads_after_rename.
  split; [apply length_map|]. split; [|reflexivity].
  intros i u Hi. exists (renamed id (JS.trim newName) u).
  split.
  - rewrite nth_error_map, Hi. reflexivity.
  - unfold renamed. split.
    + intro Heq. apply String.eqb_eq in Heq. rewrite Heq.
      simpl. repeat split.
    + intro Hneq. apply String.eqb_neq in Hneq. rewrite Hneq. reflexivity.
Qed.

Lemma rename_patches_by_id_witness :
  let result :=
    run (answering okEmpty) [] (App.updateName None "65f2" " X " twoUploads) in
  let after := uploads (fst result) in
  List.length after = 2%nat
  /\ (forall i u,
        nth_error [memo; talk] i = Some u ->
        exists u',
          nth_error after i = Some u'
          /\ (_id u = "65f2" ->
              originalName u' = "X"
              /\ _id u' = _id u
              /\ mimeType u' = mimeType u
              /\ size u' = size u
              /\ storageFilename u' = storageFilename u
              /\ transcription u' = transcription u
              /\ createdAt u' = createdAt u
              /\ url u' = url u)
          /\ (_id u <> "65f2" -> u' = u))
  /\ requests (snd result) = [App.renameRequest None "65f2" "X"].
Proof.
  apply (rename_patches_by_id None (answering okEmpty) "65f2" " X "
                              twoUploads okEmpty).
  - simpl. discriminate.
  - reflexivity.
  - reflexivity.
Defined.

(* ================================================================= *)
(** ** Delete *)

Section FilterOne.

Context {A : Type} (p : A -> bool).

Lemma filter_none (l : list A) :
  List.length (filter p l) = 0%nat ->
  filter (fun x => negb (p x)) l = l.
Proof.
  induction l as [|x l IH]; simpl; intro H.
  - reflexivity.
  - destruct (p x); simpl in *.
    + discriminate.
    + rewrite (IH H). reflexivity.
Qed.

(** When exactly one element satisfies [p], removing the elements that
    satisfy [p] cuts that element out and leaves the rest in place. *)
Lemma filter_one (l : list A) :
  List.length (filter p l) = 1%nat ->
  exists before x after,
    l = (before ++ x :: after)%list
    /\ p x = true
    /\ filter (fun x => negb (p x)) l = (before ++ after)%list.
Proof.
  induction l as [|y l IH]; simpl; intro H.
  - discriminate.
  - destruct (p y) eqn:Hy; simpl in *.
    + exists [], y, l. injection H as H.
      rewrite (filter_none l H). repeat split. exact Hy.
    + destruct (IH H) as (before & x & after & Hl & Hx & Hf).
      exists (y :: before), x, after. rewrite Hl at 1. rewrite Hf.
      repeat split. exact Hx.
Qed.

End FilterOne.

Lemma delete_success_run
      (api : option string) (env : Env) (id : string) (s : State)
      (res : Response) :
  env _ [] (Fetch (App.deleteRequest api id)) = Responded res ->
  ok res = true ->
  run env [] (App.deleteUpload api id s)
  = (setDeletingId None
       (setUploads (filter (fun u => negb (String.eqb (_id u) id)) (uploads s))
                   (setError None (setDeletingId (Some id) s))),
     [Performed (Fetch (App.deleteRequest api id)) (Responded res)]).
Proof.
  intros Henv Hok. unfold App.deleteUpload. simpl. rewrite Henv. simpl.
  rewrite Hok. simpl. destruct s; reflexivity.
Qed.

Lemma uploads_after_delete (l : list UploadItem) (id : string) (s : State) :
  uploads (setDeletingId None
             (setUploads l (setError None (setDeletingId (Some id) s))))
  = l.
Proof. destruct s; reflexivity. Qed.

(** C5.  After a successful [deleteUpload id] (the DELETE is answered with
    an [ok] response) on a list that holds exactly one record whose [_id]
    is [id]: no record of the list has that [_id], the list is shorter by
    one, and it is the old list with that one record cut out, the others
    in their order. *)
Theorem delete_removes_record
        (api : option string) (env : Env) (id : string) (s : State)
        (res : Response) :
  env _ [] (Fetch (App.deleteRequest api id)) = Responded res ->
  ok res = true ->
  List.length (filter (fun u => String.eqb (_id u) id) (uploads s)) = 1%nat ->
  let after := uploads (fst (run env [] (App.deleteUpload api id s))) in
  (forall u, In u after -> _id u <> id)
  /\ S (List.length after) = List.length (uploads s)
  /\ exists before u rest,
       uploads s = (before ++ u :: rest)%list
       /\ _id u = id
       /\ after = (before ++ rest)%list.
Proof.
  intros Henv Hok Hone after. subst after.
  rewrite (delete_success_run api env id s res Henv Hok).
  cbn [fst]. rewrite uploads_after_delete.
  destruct (filter_one (fun u => String.eqb (_id u) id) (uploads s) Hone)
    as (before & u & rest & Hl & Hu & Hf).
  split; [|split].
  - intros v Hin. apply filter_In in Hin as [_ Hv].
    apply negb_true_iff, String.eqb_neq in Hv. exact Hv.
  - rewrite Hf, Hl. rewrite !length_app. simpl. lia.
  - exists before, u, rest. apply String.eqb_eq in Hu. repeat split; assumption.
Qed.

Lemma delete_removes_record_witness :
  let after :=
    uploads (fst (run (answering okEmpty) [] (App.deleteUpload None "65f1" twoUploads))) in
  (forall u, In u after -> _id u <> "65f1")
  /\ S (List.length after) = 2%nat
  /\ exists before u rest,
       [memo; talk] = (before ++ u :: rest)%list
       /\ _id u = "65f1"
       /\ after = (before ++ rest)%list.
Proof.
  apply (delete_removes_record None (answering okEmpty) "65f1" twoUploads okEmpty);
    reflexivity.
Defined.

(* ================================================================= *)
(** ** Listing *)

Lemma fetchUploads_run (api : option string) (env : Env) (s : State) :
  run env [] (App.fetchUploads api s)
  = (setIsLoadingList false
       (tryCatch
          match env _ [] (Fetch (App.listRequest api)) with
          | Rejected e => inr e
          | Responded res =>
              if negb (ok res) then
                throwError (App.responseMessage "Failed to fetch" res)
              else
                match json res with
                | JsonRejects e => inr e
                | JsonResolves data =>
                    inl (setUploads (body_items data)
                           (setError None (setIsLoadingList true s)))
                end
          end
          (fun e => setError (Some (messageOf e "Failed to fetch uploads"))
                      (setError None (setIsLoadingList true s)))),
     [Performed (Fetch (App.listRequest api))
                (env _ [] (Fetch (App.listRequest api)))]).
Proof. reflexivity. Qed.

Lemma legacy_fetchUploads_run (env : Env) (s : State) :
  run env [] (LegacyApp.fetchUploads s)
  = (setIsLoadingList false
       (tryCatch
          match env _ [] (Fetch LegacyApp.listRequest) with
          | Rejected e => inr e
          | Responded res =>
              if negb (ok res) then
                throwError ("Failed to fetch uploads ("
                              ++ JS.showN (status res) ++ ")")
              else
                match json res with
                | JsonRejects e => inr e
                | JsonResolves data =>
                    inl (setUploads (body_items data)
                           (setError None (setIsLoadingList true s)))
                end
          end
          (fun e => setError (Some (messageOf e "Failed to fetch uploads"))
                      (setError None (setIsLoadingList true s)))),
     [Performed (Fetch LegacyApp.listRequest)
                (env _ [] (Fetch LegacyApp.listRequest))]).
Proof. reflexivity. Qed.

Lemma list_failed_state (m : string) (s : State) :
  uploads (setIsLoadingList false
             (setError (Some m) (setError None (setIsLoadingList true s))))
  = uploads s
  /\ error (setIsLoadingList false
              (setError (Some m) (setError None (setIsLoadingList true s))))
     = Some m.
Proof. destruct s; split; reflexivity. Qed.

Lemma list_loaded_state (l : list UploadItem) (s : State) :
  uploads (setIsLoadingList false
             (setUploads l (setError None (setIsLoadingList true s))))
  = l
  /\ error (setIsLoadingList false
              (setUploads l (setError None (setIsLoadingList true s))))
     = None.
Proof. destruct s; split; reflexivity. Qed.

Lemma responseMessage_backendText (what : string) (res : Response) :
  App.responseMessage what res
  = match backendText res with
    | Some t => t
    | None => what ++ " (" ++ JS.showN (status res) ++ ")"
    end.
Proof.
  unfold App.responseMessage, backendText, jsonOrEmpty, App.statusMessage.
  destruct (json res) as [e|v]; simpl; [reflexivity|].
  destruct (body_error v) as [t|]; simpl; [|reflexivity].
  unfold JS.orElse. destruct (JS.truthy t); reflexivity.
Qed.

Lemma list_failure_banner (api : option string) (env : Env) (s : State) :
  failed (env _ [] (Fetch (App.listRequest api))) = true ->
  error (fst (run env [] (App.fetchUploads api s)))
  = Some (failureBanner "Failed to fetch" "Failed to fetch uploads"
            (env _ [] (Fetch (App.listRequest api)))).
Proof.
  intro Hfail. rewrite fetchUploads_run. cbn [fst].
  destruct (env _ [] (Fetch (App.listRequest api))) as [e|res];
    cbn [failureBanner]; [apply list_failed_state|].
  rewrite <- responseMessage_backendText. simpl in *. rewrite Hfail.
  apply list_failed_state.
Qed.

(** On a response the banner of a failure is never the empty text. *)
Lemma failureBanner_response_nonempty
      (generic fallback : string) (res : Response) :
  JS.truthy (failureBanner generic fallback (Responded res)) = true.
Proof.
  unfold failureBanner, backendText.
  destruct (json res) as [e|v].
  - destruct generic; reflexivity.
  - destruct (body_error v) as [t|].
    + destruct (JS.truthy t) eqn:Ht; [exact Ht | destruct generic; reflexivity].
    + destruct generic; reflexivity.
Qed.

(** [fetchUploads] either leaves the list alone or got an [ok] response
    whose body parsed. *)
Lemma fetchUploads_keeps_or_loads (api : option string) (env : Env) (s : State) :
  uploads (fst (run env [] (App.fetchUploads api s))) = uploads s
  \/ exists res data,
       env _ [] (Fetch (App.listRequest api)) = Responded res
       /\ ok res = true /\ json res = JsonResolves data.
Proof.
  rewrite fetchUploads_run. cbn [fst].
  destruct (env _ [] (Fetch (App.listRequest api))) as [e|res]; simpl.
  - left. apply list_failed_state.
  - destruct (ok res) eqn:Hok; simpl.
    + destruct (json res) as [e|data] eqn:Hjson; simpl.
      * left. apply list_failed_state.
      * right. exists res, data. repeat split; assumption.
    + left. apply list_failed_state.
Qed.

Lemma legacy_fetchUploads_keeps_or_loads (env : Env) (s : State) :
  uploads (fst (run env [] (LegacyApp.fetchUploads s))) = uploads s
  \/ exists res data,
       env _ [] (Fetch LegacyApp.listRequest) = Responded res
       /\ ok res = true /\ json res = JsonResolves data.
Proof.
  rewrite legacy_fetchUploads_run. cbn [fst].
  destruct (env _ [] (Fetch LegacyApp.listRequest)) as [e|res]; simpl.
  - left. apply list_failed_state.
  - destruct (ok res) eqn:Hok; simpl.
    + destruct (json res) as [e|data] eqn:Hjson; simpl.
      * left. apply list_failed_state.
      * right. exists res, data. repeat split; assumption.
    + left. apply list_failed_state.
Qed.

(** C6.  In both revisions, when the GET of [fetchUploads] fails ([fetch]
    rejects, or the status is outside 200-299) [uploads] is what it was
    and the banner gets a message.  In the current revision the message
    is what was thrown when [fetch] rejected, and on a response the error
    text of the backend or else "Failed to fetch (<status>)"; in the
    earlier revision it is what was thrown, and on a response
    "Failed to fetch uploads (<status>)"; on a response the message is
    never empty.  When the GET succeeds [uploads] becomes the list of the
    response, whatever it held before; and [uploads] differs from what it
    was only after an [ok] response whose body parsed. *)
Theorem list_failure_keeps_list
        (api : option string) (env : Env) (s : State) :
  let r := env _ [] (Fetch (App.listRequest api)) in
  let s' := fst (run env [] (App.fetchUploads api s)) in
  let r0 := env _ [] (Fetch LegacyApp.listRequest) in
  let s0 := fst (run env [] (LegacyApp.fetchUploads s)) in
  (failed r = true ->
   uploads s' = uploads s
   /\ error s'
      = Some match r with
             | Rejected e => messageOf e "Failed to fetch uploads"
             | Responded res =>
                 match backendText res with
                 | Some text => text
                 | None => "Failed to fetch (" ++ JS.showN (status res) ++ ")"
                 end
             end
   /\ (forall res, r = Responded res ->
       exists message, error s' = Some message /\ JS.truthy message = true))
  /\ (failed r0 = true ->
      uploads s0 = uploads s
      /\ error s0
         = Some match r0 with
                | Rejected e => messageOf e "Failed to fetch uploads"
                | Responded res =>
                    "Failed to fetch uploads (" ++ JS.showN (status res) ++ ")"
                end)
  /\ (forall res data,
        r = Responded res -> ok res = true -> json res = JsonResolves data ->
        uploads s' = body_items data /\ error s' = None)
  /\ (forall res data,
        r0 = Responded res -> ok res = true -> json res = JsonResolves data ->
        uploads s0 = body_items data /\ error s0 = None)
  /\ (uploads s' <> uploads s ->
      exists res data,
        r = Responded res /\ ok res = true /\ json res = JsonResolves data)
  /\ (uploads s0 <> uploads s ->
      exists res data,
        r0 = Responded res /\ ok res = true /\ json res = JsonResolves data).
Proof.
  intros r s' r0 s0.
  split; [|split; [|split; [|split; [|split]]]].
  - intro Hfail.
    assert (Hbanner : error s'
                      = Some (failureBanner "Failed to fetch"
                                "Failed to fetch uploads" r))
      by (apply list_failure_banner; exact Hfail).
    split; [|split].
    + destruct (fetchUploads_keeps_or_loads api env s)
        as [Hsame | (res & data & Hr & Hok & _)]; [exact Hsame|].
      fold r in Hr. rewrite Hr in Hfail. simpl in Hfail.
      rewrite Hok in Hfail. discriminate.
    + exact Hbanner.
    + intros res Hr. eexists. split; [exact Hbanner|].
      rewrite Hr. apply failureBanner_response_nonempty.
  - intro Hfail. subst s0. rewrite legacy_fetchUploads_run. cbn [fst]. fold r0.
    destruct r0 as [e|res]; simpl in *.
    + apply list_failed_state.
    + rewrite Hfail. apply list_failed_state.
  - intros res data Hr Hok Hjson. subst s'.
    rewrite fetchUploads_run. cbn [fst]. fold r. rewrite Hr. simpl.
    rewrite Hok, Hjson. apply list_loaded_state.
  - intros res data Hr Hok Hjson. subst s0.
    rewrite legacy_fetchUploads_run. cbn [fst]. fold r0. rewrite Hr. simpl.
    rewrite Hok, Hjson. apply list_loaded_state.
  - intro Hchanged.
    destruct (fetchUploads_keeps_or_loads api env s) as [Hsame|Hloaded].
    + contradiction.
    + exact Hloaded.
  - intro Hchanged.
    destruct (legacy_fetchUploads_keeps_or_loads env s) as [Hsame|Hloaded].
    + contradiction.
    + exact Hloaded.
Qed.

Lemma list_failure_keeps_list_witness :
  (uploads (fst (run offline [] (App.fetchUploads None twoUploads)))
   = [memo; talk]
   /\ error (fst (run offline [] (App.fetchUploads None twoUploads)))
      = Some "Failed to fetch")
  /\ (uploads (fst (run (answering quotaResponse) []
                        (App.fetchUploads None twoUploads)))
      = [memo; talk]
      /\ error (fst (run (answering quotaResponse) []
                         (App.fetchUploads None twoUploads)))
         = Some "Storage quota exceeded")
  /\ (uploads (fst (run (answering htmlErrorResponse) []
                        (App.fetchUploads None twoUploads)))
      = [memo; talk]
      /\ error (fst (run (answering htmlErrorResponse) []
                         (App.fetchUploads None twoUploads)))
         = Some "Failed to fetch (502)")
  /\ (uploads (fst (run (answering quotaResponse) []
                        (LegacyApp.fetchUploads twoUploads)))
      = [memo; talk]
      /\ error (fst (run (answering quotaResponse) []
                         (LegacyApp.fetchUploads twoUploads)))
         = Some "Failed to fetch uploads (507)")
  /\ (uploads (fst (run (answering oneItemResponse) []
                        (App.fetchUploads None twoUploads)))
      = [talk]
      /\ error (fst (run (answering oneItemResponse) []
                         (App.fetchUploads None twoUploads)))
         = None)
  /\ (exists res data,
        answering oneItemResponse _ [] (Fetch (App.listRequest None))
        = Responded res
        /\ ok res = true /\ json res = JsonResolves data).
Proof.
  pose proof (list_failure_keeps_list None offline twoUploads) as Hoff.
  pose proof (list_failure_keeps_list None (answering quotaResponse)
                                      twoUploads) as Hquota.
  pose proof (list_failure_keeps_list None (answering htmlErrorResponse)
                                      twoUploads) as Hhtml.
  pose proof (list_failure_keeps_list None (answering oneItemResponse)
                                      twoUploads) as Hon.
  split; [|split; [|split; [|split; [|split]]]].
  - destruct (proj1 Hoff eq_refl) as (Hlist & Hbanner & _).
    split; [exact Hlist | exact Hbanner].
  - destruct (proj1 Hquota eq_refl) as (Hlist & Hbanner & _).
    split; [exact Hlist | exact Hbanner].
  - destruct (proj1 Hhtml eq_refl) as (Hlist & Hbanner & _).
    split; [exact Hlist | exact Hbanner].
  - apply (proj1 (proj2 Hquota)). reflexivity.
  - apply (proj1 (proj2 (proj2 Hon))
             oneItemResponse {| body_error := None; body_items := [talk] |});
      reflexivity.
  - apply (proj1 (proj2 (proj2 (proj2 (proj2 Hon))))).
    simpl. discriminate.
Defined.

(* ================================================================= *)
(** ** The error banner *)

Lemma upload_failure_banner
      (api : option string) (env : Env) (file : File) (s : State) :
  App.isValidAudioFile file = App.Valid ->
  failed (env _ [] (Fetch (App.uploadRequest api file))) = true ->
  error (fst (run env [] (App.uploadFile api file s)))
  = Some (failureBanner "Upload failed" "Upload failed"
            (env _ [] (Fetch (App.uploadRequest api file)))).
Proof.
  intros Hvalid Hfail. unfold App.uploadFile. rewrite Hvalid. simpl.
  destruct (env _ [] (Fetch (App.uploadRequest api file))) as [e|res];
    cbn [failureBanner]; [state_eq s|].
  rewrite <- responseMessage_backendText. simpl in *. rewrite Hfail.
  state_eq s.
Qed.

Lemma rename_failure_banner
      (api : option string) (env : Env) (id newName : string) (s : State) :
  JS.trim newName <> "" ->
  failed (env _ [] (Fetch (App.renameRequest api id (JS.trim newName)))) = true ->
  error (fst (run env [] (App.updateName api id newName s)))
  = Some (failureBanner "Update failed" "Failed to update name"
            (env _ [] (Fetch (App.renameRequest api id (JS.trim newName))))).
Proof.
  intros Hname Hfail. unfold App.updateName.
  rewrite (truthy_nonempty _ Hname). simpl.
  destruct (env _ [] (Fetch (App.renameRequest api id (JS.trim newName))))
    as [e|res]; cbn [failureBanner]; [state_eq s|].
  rewrite <- responseMessage_backendText. simpl in *. rewrite Hfail.
  state_eq s.
Qed.

Lemma delete_failure_banner
      (api : option string) (env : Env) (id : string) (s : State) :
  failed (env _ [] (Fetch (App.deleteRequest api id))) = true ->
  error (fst (run env [] (App.deleteUpload api id s)))
  = Some (failureBanner "Delete failed" "Failed to delete"
            (env _ [] (Fetch (App.deleteRequest api id)))).
Proof.
  intro Hfail. unfold App.deleteUpload. simpl.
  destruct (env _ [] (Fetch (App.deleteRequest api id))) as [e|res];
    cbn [failureBanner]; [state_eq s|].
  rewrite <- responseMessage_backendText. simpl in *. rewrite Hfail.
  state_eq s.
Qed.

(** The decimal rendering of a number starts with a digit. *)
Lemma showN_head (n : N) :
  exists c rest, JS.showN n = String c rest /\ In c digits.
Proof.
  unfold JS.showN.
  assert (Hnonnil : N.to_uint n <> Decimal.Nil).
  { destruct n as [|p]; simpl.
    - discriminate.
    - apply DecimalPos.Unsigned.to_uint_nonnil. }
  destruct (N.to_uint n) as [|d|d|d|d|d|d|d|d|d|d]; [congruence| ..];
    simpl; eexists; eexists; (split; [reflexivity|]);
    unfold digits; simpl; tauto.
Qed.

(** C8, as stated, fails, in two ways.  When the backend cannot be
    reached [fetch] rejects, the operation fails, and the banner is the
    message of what was thrown: no response exists, and the banner holds
    no HTTP status.  And when the body of a failed response has an
    [error] field that is the empty text, the banner is not that text but
    the generic message. *)
Lemma unreachable_backend_banner_has_no_status :
  (failed (offline _ [] (Fetch (App.deleteRequest None "65f1"))) = true
   /\ error (fst (run offline [] (App.deleteUpload None "65f1" twoUploads)))
      = Some "Failed to fetch"
   /\ (forall code : N, JS.includes (JS.showN code) "Failed to fetch" = false))
  /\ (ok emptyErrorResponse = false
      /\ body_error (jsonOrEmpty emptyErrorResponse) = Some ""
      /\ error (fst (run (answering emptyErrorResponse) []
                         (App.deleteUpload None "65f1" twoUploads)))
         = Some "Delete failed (500)").
Proof.
  split; [|repeat split].
  split; [reflexivity|]. split; [reflexivity|].
  intro code. destruct (showN_head code) as (c & rest & -> & Hc).
  unfold digits in Hc. simpl in Hc.
  repeat (destruct Hc as [<- | Hc]; [reflexivity|]). contradiction.
Qed.

(** C8, amended.  For each of list, upload (of a file that passes the
    validator), rename (to a name that is not blank) and remove, when the
    operation fails the banner is replaced, whatever it held, by:
    the backend's error text, when the response is not [ok] and its body
    parses and has a non-empty [error] field; the generic message of the
    operation followed by the status in parentheses, when the response is
    not [ok] otherwise; the message of what was thrown, when [fetch]
    itself rejected. *)
Theorem failure_banner
        (api : option string) (env : Env) (s : State)
        (file : File) (id newName : string) :
  (failed (env _ [] (Fetch (App.listRequest api))) = true ->
   error (fst (run env [] (App.fetchUploads api s)))
   = Some (failureBanner "Failed to fetch" "Failed to fetch uploads"
             (env _ [] (Fetch (App.listRequest api)))))
  /\ (App.isValidAudioFile file = App.Valid ->
      failed (env _ [] (Fetch (App.uploadRequest api file))) = true ->
      error (fst (run env [] (App.uploadFile api file s)))
      = Some (failureBanner "Upload failed" "Upload failed"
                (env _ [] (Fetch (App.uploadRequest api file)))))
  /\ (JS.trim newName <> "" ->
      failed (env _ [] (Fetch (App.renameRequest api id (JS.trim newName))))
      = true ->
      error (fst (run env [] (App.updateName api id newName s)))
      = Some (failureBanner "Update failed" "Failed to update name"
                (env _ [] (Fetch (App.renameRequest api id (JS.trim newName))))))
  /\ (failed (env _ [] (Fetch (App.deleteRequest api id))) = true ->
      error (fst (run env [] (App.deleteUpload api id s)))
      = Some (failureBanner "Delete failed" "Failed to delete"
                (env _ [] (Fetch (App.deleteRequest api id))))).
Proof.
  split; [|split; [|split]].
  - apply list_failure_banner.
  - apply upload_failure_banner.
  - apply rename_failure_banner.
  - apply delete_failure_banner.
Qed.

Lemma failure_banner_witness :
  error (fst (run (answering htmlErrorResponse) []
                  (App.fetchUploads None staleBanner)))
  = Some "Failed to fetch (502)"
  /\ error (fst (run (answering quotaResponse) []
                     (App.uploadFile None wavFile staleBanner)))
     = Some "Storage quota exceeded"
  /\ error (fst (run offline [] (App.updateName None "65f1" "X" staleBanner)))
     = Some "Failed to fetch"
  /\ error (fst (run (answering htmlErrorResponse) []
                     (App.deleteUpload None "65f1" staleBanner)))
     = Some "Delete failed (502)".
Proof.
  split; [|split; [|split]].
  - apply (proj1 (failure_banner None (answering htmlErrorResponse)
                                 staleBanner wavFile "65f1" "X")).
    reflexivity.
  - apply (proj1 (proj2 (failure_banner None (answering quotaResponse)
                                        staleBanner wavFile "65f1" "X")));
      reflexivity.
  - apply (proj1 (proj2 (proj2 (failure_banner None offline
                                               staleBanner wavFile "65f1" "X")))).
    + simpl. discriminate.
    + reflexivity.
  - apply (proj2 (proj2 (proj2 (failure_banner None (answering htmlErrorResponse)
                                               staleBanner wavFile "65f1" "X")))).
    reflexivity.
Defined.

(* ================================================================= *)
(** ** Recording *)

Lemma recordedFile_set (v : option File) (s : State) :
  recordedFile (setRecordedFile v s) = v.
Proof. state_eq s. Qed.

Lemma onstop_file
      (env : Env) (past : list Event) (recorder : MediaRecorder) (s : State) :
  exists now file,
    In (Performed DateNow now) (snd (run env past (App.onstop recorder s)))
    /\ recordedFile (fst (run env past (App.onstop recorder s))) = Some file
    /\ fileName file
       = "recording-" ++ JS.showN now ++ "."
           ++ App.extensionOf (finalType recorder s).
Proof.
  unfold App.onstop, revokeIfSet.
  destruct (whenTruthy (capturedRecordingUrl recorder)) as [u|]; simpl;
    eexists; eexists; (split; [|split; [apply recordedFile_set|reflexivity]]);
    rewrite !in_app_iff; simpl; tauto.
Qed.

Lemma legacy_onstop_file
      (env : Env) (past : list Event) (recorder : MediaRecorder) (s : State) :
  exists now file,
    In (Performed DateNow now) (snd (run env past (LegacyApp.onstop recorder s)))
    /\ recordedFile (fst (run env past (LegacyApp.onstop recorder s)))
       = Some file
    /\ fileName file
       = "recording-" ++ JS.showN now ++ "."
           ++ LegacyApp.extensionOf (finalType recorder s).
Proof.
  unfold LegacyApp.onstop; simpl.
  eexists; eexists; (split; [|split; [apply recordedFile_set|reflexivity]]).
  rewrite !in_app_iff; simpl; tauto.
Qed.

(** C9.  In both revisions the [onstop] handler of the recorder leaves in
    [recordedFile] a file named "recording-<now>.<ext>", where <now> is
    the value [Date.now()] returned during the handler and <ext> is "ogg"
    when the type of the finalized blob contains "ogg", else "wav" when it
    contains "wav", else "webm". *)
Theorem recording_file_name
        (env : Env) (past : list Event) (recorder : MediaRecorder) (s : State) :
  let type := finalType recorder s in
  let ext :=
    if JS.includes "ogg" type then "ogg"
    else if JS.includes "wav" type then "wav"
    else "webm" in
  (exists now file,
      In (Performed DateNow now) (snd (run env past (App.onstop recorder s)))
      /\ recordedFile (fst (run env past (App.onstop recorder s))) = Some file
      /\ fileName file = "recording-" ++ JS.showN now ++ "." ++ ext)
  /\ (exists now file,
         In (Performed DateNow now)
            (snd (run env past (LegacyApp.onstop recorder s)))
         /\ recordedFile (fst (run env past (LegacyApp.onstop recorder s)))
            = Some file
         /\ fileName file = "recording-" ++ JS.showN now ++ "." ++ ext).
Proof.
  intros type ext. split.
  - exact (onstop_file env past recorder s).
  - exact (legacy_onstop_file env past recorder s).
Qed.

(** A recorder of Ogg audio, stopped with one chunk gathered. *)
Example ogg_recording_is_named_ogg :
  let recorder :=
    {| recorderMimeType := "audio/ogg;codecs=opus";
       capturedRecordingUrl := None |} in
  let s := setChunksRef [{| blobType := ""; blobSize := 512 |}] initialState in
  option_map fileName
    (recordedFile (fst (run offline [] (App.onstop recorder s))))
  = Some "recording-1700000000000.ogg".
Proof. reflexivity. Qed.

(** A recorder that reports no type: the blob is typed "audio/webm". *)
Example untyped_recording_is_named_webm :
  let recorder :=
    {| recorderMimeType := ""; capturedRecordingUrl := Some "blob:old" |} in
  option_map fileName
    (recordedFile (fst (run offline [] (App.onstop recorder initialState))))
  = Some "recording-1700000000000.webm".
Proof. reflexivity. Qed.

(* ================================================================= *)
(** ** Types that are not audio and pass the validator *)

Lemma video_type_is_allowed (type : string) :
  In type ["video/mp4"; "video/webm"; "video/ogg"] ->
  JS.startsWith "audio/" (JS.toLowerCase type) = false
  /\ JS.startsWith "audio/" type = false
  /\ App.isAllowed (JS.toLowerCase type) = true.
Proof.
  simpl. intros [<- | [<- | [<- | []]]]; repeat split; reflexivity.
Qed.

Lemma valid_upload_posts
      (api : option string) (env : Env) (file : File) (s : State) :
  App.isValidAudioFile file = App.Valid ->
  exists rest,
    requests (snd (run env [] (App.uploadFile api file s)))
    = App.uploadRequest api file :: rest.
Proof.
  intro Hvalid. unfold App.uploadFile. rewrite Hvalid.
  apply requests_of_fetch_first.
Qed.

(** C10.  A file whose type is "video/mp4", "video/webm" or "video/ogg",
    and whose size is within the ceiling, does not have a type starting
    with "audio/", yet the validator answers [Valid], because the type
    contains one of the tokens; [uploadFile] then sends it: the first
    request of the handler is the POST of that file to [/api/uploads]. *)
Theorem video_types_pass_validation
        (api : option string) (env : Env) (file : File) (s : State) :
  In (fileType file) ["video/mp4"; "video/webm"; "video/ogg"] ->
  (fileSize file <= App.MAX_FILE_SIZE_BYTES)%N ->
  JS.startsWith "audio/" (fileType file) = false
  /\ App.isValidAudioFile file = App.Valid
  /\ exists rest,
       requests (snd (run env [] (App.uploadFile api file s)))
       = {| method := POST; target := App.API_BASE api ++ "/api/uploads";
            headers := []; body := FormData "audio" file |} :: rest.
Proof.
  intros Htype Hsize.
  destruct (video_type_is_allowed (fileType file) Htype) as (_ & Hraw & Hallowed).
  assert (Hvalid : App.isValidAudioFile file = App.Valid)
    by (apply allowed_within_limit_is_valid; assumption).
  split; [exact Hraw|]. split; [exact Hvalid|].
  exact (valid_upload_posts api env file s Hvalid).
Qed.

Lemma video_types_pass_validation_witness :
  JS.startsWith "audio/" "video/mp4" = false
  /\ App.isValidAudioFile videoFile = App.Valid
  /\ exists rest,
       requests (snd (run (answering okEmpty) []
                          (App.uploadFile None videoFile initialState)))
       = {| method := POST; target := "/api/uploads";
            headers := []; body := FormData "audio" videoFile |} :: rest.
Proof.
  apply (video_types_pass_validation None (answering okEmpty) videoFile
                                     initialState).
  - simpl. left. reflexivity.
  - unfold App.MAX_FILE_SIZE_BYTES, App.MAX_FILE_SIZE_MB. simpl. lia.
Defined.

(* ================================================================= *)
(** * Further properties of the component *)

(* ================================================================= *)
(** ** Size formatting, in general *)

Lemma legacy_formatBytes_same (x : JS.JSNumber) :
  LegacyApp.formatBytes x = App.formatBytes x.
Proof. reflexivity. Qed.

(** [formatBytes] once the index of the unit is known. *)
Lemma formatBytes_at (z idx : Z) :
  (0 < z)%Z ->
  Z.min (Z.log2 z / 10) 3 = idx ->
  App.formatBytes (JS.Int z)
  = JS.toFixed z (1024 ^ idx) (if (idx =? 0)%Z then 0%nat else 1%nat)
      ++ " " ++ nth (Z.to_nat idx) ["B"; "KB"; "MB"; "GB"] "undefined".
Proof.
  intros Hpos Hidx. unfold App.formatBytes.
  assert (Hle : (z <=? 0)%Z = false) by (apply Z.leb_gt; exact Hpos).
  cbn [JS.isFinite JS.leZero negb orb]. rewrite Hle.
  change (Z.of_nat (List.length ["B"; "KB"; "MB"; "GB"]) - 1)%Z with 3%Z.
  cbv zeta. rewrite Hidx. reflexivity.
Qed.

(** The integer logarithm in base 1024 of a number between two powers. *)
Lemma log1024_between (z k : Z) :
  (0 <= k)%Z -> (2 ^ (10 * k) <= z < 2 ^ (10 * (k + 1)))%Z ->
  (Z.log2 z / 10 = k)%Z.
Proof.
  intros Hk [Hlo Hhi].
  assert (Hpow : (0 < 2 ^ (10 * k))%Z) by (apply Z.pow_pos_nonneg; lia).
  assert (Hz : (0 < z)%Z) by lia.
  assert (H1 : (10 * k <= Z.log2 z)%Z) by (apply Z.log2_le_pow2; lia).
  assert (H2 : (Z.log2 z < 10 * (k + 1))%Z) by (apply Z.log2_lt_pow2; lia).
  symmetry. apply (Z.div_unique _ _ k (Z.log2 z - 10 * k)); lia.
Qed.

(** X1.  In both revisions a count from 1 to 1023 bytes is shown as
    that integer, without decimals, followed by " B". *)
Theorem formatBytes_plain_bytes (z : Z) :
  (0 < z < 1024)%Z ->
  App.formatBytes (JS.Int z) = JS.showZ z ++ " B"
  /\ LegacyApp.formatBytes (JS.Int z) = JS.showZ z ++ " B".
Proof.
  intros [Hpos Hlt].
  assert (Hidx : Z.min (Z.log2 z / 10) 3 = 0%Z).
  { rewrite (log1024_between z 0); [reflexivity | lia |].
    change (2 ^ (10 * 0))%Z with 1%Z.
    change (2 ^ (10 * (0 + 1)))%Z with 1024%Z. lia. }
  assert (Hfmt : App.formatBytes (JS.Int z) = JS.showZ z ++ " B").
  { rewrite (formatBytes_at z 0 Hpos Hidx). cbn [Z.eqb Z.to_nat nth].
    unfold JS.toFixed. cbn [Z.of_nat].
    change (10 ^ 0)%Z with 1%Z. change (1024 ^ 0)%Z with 1%Z.
    replace ((2 * z * 1 + 1) / (2 * 1))%Z with z; [reflexivity|].
    apply (Z.div_unique _ _ z 1); lia. }
  split; [exact Hfmt | rewrite legacy_formatBytes_same; exact Hfmt].
Qed.

Lemma formatBytes_plain_bytes_witness :
  App.formatBytes (JS.Int 512) = "512 B"
  /\ LegacyApp.formatBytes (JS.Int 512) = "512 B".
Proof. apply (formatBytes_plain_bytes 512). lia. Defined.

(** X2.  In both revisions the unit follows the size: KB from 1024 bytes,
    MB from 1024 * 1024 bytes, GB above 1024 * 1024 * 1024 bytes, and GB
    remains the unit however large the count is (up to 2^53); the number
    shown is the count divided by the unit, with one decimal. *)
Theorem formatBytes_unit (z : Z) :
  ((1024 <= z < 1024 * 1024)%Z ->
   App.formatBytes (JS.Int z) = JS.toFixed z 1024 1 ++ " KB"
   /\ LegacyApp.formatBytes (JS.Int z) = JS.toFixed z 1024 1 ++ " KB")
  /\ ((1024 * 1024 <= z < 1024 * 1024 * 1024)%Z ->
      App.formatBytes (JS.Int z) = JS.toFixed z (1024 * 1024) 1 ++ " MB"
      /\ LegacyApp.formatBytes (JS.Int z)
         = JS.toFixed z (1024 * 1024) 1 ++ " MB")
  /\ ((1024 * 1024 * 1024 < z <= 2 ^ 53)%Z ->
      App.formatBytes (JS.Int z)
      = JS.toFixed z (1024 * 1024 * 1024) 1 ++ " GB"
      /\ LegacyApp.formatBytes (JS.Int z)
         = JS.toFixed z (1024 * 1024 * 1024) 1 ++ " GB").
Proof.
  split; [|split].
  - intros [Hlo Hhi].
    assert (Hidx : Z.min (Z.log2 z / 10) 3 = 1%Z).
    { rewrite (log1024_between z 1); [reflexivity | lia |].
      change (2 ^ (10 * 1))%Z with 1024%Z.
      change (2 ^ (10 * (1 + 1)))%Z with 1048576%Z. lia. }
    change (LegacyApp.formatBytes (JS.Int z)) with (App.formatBytes (JS.Int z)).
    rewrite (formatBytes_at z 1 ltac:(lia) Hidx). split; reflexivity.
  - intros [Hlo Hhi].
    assert (Hidx : Z.min (Z.log2 z / 10) 3 = 2%Z).
    { rewrite (log1024_between z 2); [reflexivity | lia |].
      change (2 ^ (10 * 2))%Z with 1048576%Z.
      change (2 ^ (10 * (2 + 1)))%Z with 1073741824%Z. lia. }
    change (LegacyApp.formatBytes (JS.Int z)) with (App.formatBytes (JS.Int z)).
    rewrite (formatBytes_at z 2 ltac:(lia) Hidx). split; reflexivity.
  - intros [Hlo Hhi].
    assert (Hidx : Z.min (Z.log2 z / 10) 3 = 3%Z).
    { apply Z.min_r.
      assert (H30 : (30 <= Z.log2 z)%Z).
      { apply Z.log2_le_pow2; [lia|].
        change (2 ^ 30)%Z with 1073741824%Z. lia. }
      apply Z.div_le_lower_bound; lia. }
    change (LegacyApp.formatBytes (JS.Int z)) with (App.formatBytes (JS.Int z)).
    rewrite (formatBytes_at z 3 ltac:(lia) Hidx). split; reflexivity.
Qed.

Lemma formatBytes_unit_witness :
  (App.formatBytes (JS.Int 2560) = "2.5 KB"
   /\ LegacyApp.formatBytes (JS.Int 2560) = "2.5 KB")
  /\ (App.formatBytes (JS.Int 5767168) = "5.5 MB"
      /\ LegacyApp.formatBytes (JS.Int 5767168) = "5.5 MB")
  /\ (App.formatBytes (JS.Int 5497558138880) = "5120.0 GB"
      /\ LegacyApp.formatBytes (JS.Int 5497558138880) = "5120.0 GB").
Proof.
  split; [|split].
  - apply (proj1 (formatBytes_unit 2560)). lia.
  - apply (proj1 (proj2 (formatBytes_unit 5767168))). lia.
  - apply (proj2 (proj2 (formatBytes_unit 5497558138880))).
    change (2 ^ 53)%Z with 9007199254740992%Z. lia.
Defined.

(* ================================================================= *)
(** ** The validator, in general *)

(** X3.  A type that starts with "audio/", in any letter case, is
    accepted exactly up to the ceiling: a file of 25 * 1024 * 1024 bytes
    passes, one byte more is rejected with the message about the size. *)
Theorem audio_type_valid_up_to_ceiling (file : File) :
  JS.startsWith "audio/" (JS.toLowerCase (fileType file)) = true ->
  ((fileSize file <= 26214400)%N -> App.isValidAudioFile file = App.Valid)
  /\ ((26214400 < fileSize file)%N ->
      App.isValidAudioFile file = App.Invalid "File too large. Max 25 MB.").
Proof.
  intro Hprefix.
  assert (Hallowed : App.isAllowed (JS.toLowerCase (fileType file)) = true).
  { unfold App.isAllowed. rewrite Hprefix. reflexivity. }
  split; intro Hsize.
  - apply allowed_within_limit_is_valid; assumption.
  - apply (oversize_allowed_is_invalid file Hallowed Hsize).
Qed.

Lemma audio_type_valid_up_to_ceiling_witness :
  App.isValidAudioFile
    {| fileRef := 2; fileName := "edge.flac";
       fileType := "audio/flac"; fileSize := 26214400 |} = App.Valid
  /\ App.isValidAudioFile
       {| fileRef := 3; fileName := "edge.flac";
          fileType := "audio/flac"; fileSize := 26214401 |}
     = App.Invalid "File too large. Max 25 MB.".
Proof.
  split.
  - apply (proj1 (audio_type_valid_up_to_ceiling
                    {| fileRef := 2; fileName := "edge.flac";
                       fileType := "audio/flac"; fileSize := 26214400 |}
                    eq_refl)).
    simpl. lia.
  - apply (proj2 (audio_type_valid_up_to_ceiling
                    {| fileRef := 3; fileName := "edge.flac";
                       fileType := "audio/flac"; fileSize := 26214401 |}
                    eq_refl)).
    simpl. lia.
Defined.

(** X4.  [uploadFile] issues a request exactly when the validator accepts
    the file, and then the first request is the POST of that file; the
    earlier revision, which has no validator, posts every file. *)
Theorem upload_posts_iff_valid
        (api : option string) (env : Env) (file : File) (s : State) :
  (requests (snd (run env [] (App.uploadFile api file s))) = []
   <-> App.isValidAudioFile file <> App.Valid)
  /\ (App.isValidAudioFile file = App.Valid ->
      exists rest,
        requests (snd (run env [] (App.uploadFile api file s)))
        = App.uploadRequest api file :: rest)
  /\ exists rest,
       requests (snd (run env [] (LegacyApp.uploadFile file s)))
       = LegacyApp.uploadRequest file :: rest.
Proof.
  split; [|split].
  - destruct (App.isValidAudioFile file) as [|message] eqn:Hvalid.
    + destruct (valid_upload_posts api env file s Hvalid) as [rest Hrest].
      rewrite Hrest. split; [discriminate | congruence].
    + rewrite (invalid_upload_is_local api file s message Hvalid).
      split; [discriminate | reflexivity].
  - apply valid_upload_posts.
  - unfold LegacyApp.uploadFile. apply requests_of_fetch_first.
Qed.

Lemma upload_posts_iff_valid_witness :
  exists rest,
    requests (snd (run offline [] (App.uploadFile None wavFile twoUploads)))
    = App.uploadRequest None wavFile :: rest.
Proof.
  apply (proj1 (proj2 (upload_posts_iff_valid None offline wavFile twoUploads))).
  reflexivity.
Defined.

(* ================================================================= *)
(** ** Listing, in general *)

(** X5.  In both revisions [fetchUploads] issues exactly one request, the
    GET of the list, and whatever the answer it ends with [isLoadingList]
    false and touches nothing but [uploads], [error] and
    [isLoadingList]. *)
Theorem fetchUploads_frame (api : option string) (env : Env) (s : State) :
  (requests (snd (run env [] (App.fetchUploads api s))) = [App.listRequest api]
   /\ exists l e,
        fst (run env [] (App.fetchUploads api s))
        = setIsLoadingList false (setError e (setUploads l s)))
  /\ (requests (snd (run env [] (LegacyApp.fetchUploads s)))
      = [LegacyApp.listRequest]
      /\ exists l e,
           fst (run env [] (LegacyApp.fetchUploads s))
           = setIsLoadingList false (setError e (setUploads l s))).
Proof.
  split.
  - rewrite fetchUploads_run. split; [reflexivity|]. cbn [fst].
    destruct (env _ [] (Fetch (App.listRequest api))) as [e|res]; simpl.
    + exists (uploads s), (Some (messageOf e "Failed to fetch uploads")).
      state_eq s.
    + destruct (ok res); simpl.
      * destruct (json res) as [e|data]; simpl.
        -- exists (uploads s), (Some (messageOf e "Failed to fetch uploads")).
           state_eq s.
        -- exists (body_items data), None. state_eq s.
      * exists (uploads s),
               (Some (App.responseMessage "Failed to fetch" res)).
        state_eq s.
  - rewrite legacy_fetchUploads_run. split; [reflexivity|]. cbn [fst].
    destruct (env _ [] (Fetch LegacyApp.listRequest)) as [e|res]; simpl.
    + exists (uploads s), (Some (messageOf e "Failed to fetch uploads")).
      state_eq s.
    + destruct (ok res); simpl.
      * destruct (json res) as [e|data]; simpl.
        -- exists (uploads s), (Some (messageOf e "Failed to fetch uploads")).
           state_eq s.
        -- exists (body_items data), None. state_eq s.
      * eexists (uploads s), _. state_eq s.
Qed.

(* ================================================================= *)
(** ** Upload, in general *)

Lemma fetchUploads_trace
      (api : option string) (env : Env) (past : list Event) (s : State) :
  snd (run env past (App.fetchUploads api s))
  = (past ++ [Performed (Fetch (App.listRequest api))
                        (env _ past (Fetch (App.listRequest api)))])%list.
Proof. reflexivity. Qed.

(** X6.  When the upload of a valid file fails, the list is not fetched
    again: the POST is the only request, and the state is the one the
    handler got with the banner replaced and [isUploading] false, so the
    list and the pending recording are as they were. *)
Theorem failed_upload_keeps_state
        (api : option string) (env : Env) (file : File) (s : State) :
  App.isValidAudioFile file = App.Valid ->
  failed (env _ [] (Fetch (App.uploadRequest api file))) = true ->
  fst (run env [] (App.uploadFile api file s))
  = setIsUploading false
      (setError
         (Some (failureBanner "Upload failed" "Upload failed"
                  (env _ [] (Fetch (App.uploadRequest api file)))))
         s)
  /\ requests (snd (run env [] (App.uploadFile api file s)))
     = [App.uploadRequest api file].
Proof.
  intros Hvalid Hfail. unfold App.uploadFile. rewrite Hvalid. simpl.
  destruct (env _ [] (Fetch (App.uploadRequest api file))) as [e|res];
    cbn [failureBanner].
  - split; [state_eq s | reflexivity].
  - rewrite <- responseMessage_backendText. simpl in *. rewrite Hfail.
    split; [state_eq s | reflexivity].
Qed.

Lemma failed_upload_keeps_state_witness :
  fst (run offline [] (App.uploadFile None wavFile previewState))
  = setIsUploading false (setError (Some "Failed to fetch") previewState)
  /\ requests (snd (run offline [] (App.uploadFile None wavFile previewState)))
     = [App.uploadRequest None wavFile].
Proof.
  apply (failed_upload_keeps_state None offline wavFile previewState);
    reflexivity.
Defined.

(** What a successful upload computes. *)
Lemma upload_success_shape
        (api : option string) (env : Env) (file : File) (s : State)
        (res : Response) :
  App.isValidAudioFile file = App.Valid ->
  env _ [] (Fetch (App.uploadRequest api file)) = Responded res ->
  ok res = true ->
  let posted := [Performed (Fetch (App.uploadRequest api file)) (Responded res)] in
  let refreshed :=
    fst (run env posted
             (App.fetchUploads api (setError None (setIsUploading true s)))) in
  let result := run env [] (App.uploadFile api file s) in
  requests (snd result) = [App.uploadRequest api file; App.listRequest api]
  /\ (App.isRecordedFile file (recordedFile s) = true ->
      fst result
      = setIsUploading false
          (setRecordedFile None (setRecordingUrl None refreshed))
      /\ revokedUrls (snd result)
         = match whenTruthy (recordingUrl s) with
           | Some u => [u]
           | None => []
           end)
  /\ (App.isRecordedFile file (recordedFile s) = false ->
      fst result = setIsUploading false refreshed
      /\ revokedUrls (snd result) = []).
Proof.
  intros Hvalid Henv Hok posted refreshed result.
  subst result refreshed posted.
  unfold App.uploadFile. rewrite Hvalid. simpl run. rewrite Henv.
  cbn [app]. rewrite Hok. cbn [negb]. unfold revokeIfSet.
  destruct (App.isRecordedFile file (recordedFile s));
    [destruct (whenTruthy (recordingUrl s)) as [u|]|];
    simpl; (split; [reflexivity|]); split;
    try discriminate; intros _; split; reflexivity.
Qed.

(** X7.  When the POST of a valid file is answered with an [ok]
    response, [uploadFile] fetches the list once, after the POST, and
    ends in the state of that refresh with [isUploading] false.  When the
    file is the pending recording, the recording and its preview are
    cleared and the preview URL, if any, is revoked; otherwise they are
    kept and nothing is revoked. *)
Theorem successful_upload_refreshes
        (api : option string) (env : Env) (file : File) (s : State)
        (res : Response) :
  App.isValidAudioFile file = App.Valid ->
  env _ [] (Fetch (App.uploadRequest api file)) = Responded res ->
  ok res = true ->
  let posted := [Performed (Fetch (App.uploadRequest api file)) (Responded res)] in
  let refreshed :=
    fst (run env posted
             (App.fetchUploads api (setError None (setIsUploading true s)))) in
  let result := run env [] (App.uploadFile api file s) in
  requests (snd result) = [App.uploadRequest api file; App.listRequest api]
  /\ (App.isRecordedFile file (recordedFile s) = true ->
      fst result
      = setIsUploading false
          (setRecordedFile None (setRecordingUrl None refreshed))
      /\ revokedUrls (snd result)
         = match whenTruthy (recordingUrl s) with
           | Some u => [u]
           | None => []
           end)
  /\ (App.isRecordedFile file (recordedFile s) = false ->
      fst result = setIsUploading false refreshed
      /\ revokedUrls (snd result) = []).
Proof.
  exact (upload_success_shape api env file s res).
Qed.

Lemma successful_upload_refreshes_witness :
  let result :=
    run (answering oneItemResponse) [] (App.uploadFile None wavFile previewState) in
  requests (snd result) = [App.uploadRequest None wavFile; App.listRequest None]
  /\ uploads (fst result) = [talk]
  /\ recordedFile (fst result) = None
  /\ recordingUrl (fst result) = None
  /\ isUploading (fst result) = false
  /\ revokedUrls (snd result) = ["blob:old"].
Proof.
  pose proof (successful_upload_refreshes None (answering oneItemResponse)
                wavFile previewState oneItemResponse
                eq_refl eq_refl eq_refl) as (Hreq & Hrecorded & _).
  destruct (Hrecorded eq_refl) as [Hstate Hrevoked].
  cbv zeta. rewrite Hstate, Hrevoked, Hreq. repeat split.
Defined.

(* ================================================================= *)
(** ** Rename, in general *)

(** X8.  When a rename to a name that is not blank fails, the PATCH is
    the only request and the state is the one the handler got with the
    banner replaced: the list is as it was and the edit form stays open
    with its text. *)
Theorem failed_rename_keeps_edit_open
        (api : option string) (env : Env) (id newName : string) (s : State) :
  JS.trim newName <> "" ->
  failed (env _ [] (Fetch (App.renameRequest api id (JS.trim newName)))) = true ->
  let result := run env [] (App.updateName api id newName s) in
  fst result
  = setError
      (Some (failureBanner "Update failed" "Failed to update name"
               (env _ [] (Fetch (App.renameRequest api id (JS.trim newName))))))
      s
  /\ uploads (fst result) = uploads s
  /\ editingId (fst result) = editingId s
  /\ editingName (fst result) = editingName s
  /\ requests (snd result) = [App.renameRequest api id (JS.trim newName)].
Proof.
  intros Hname Hfail result. subst result. unfold App.updateName.
  rewrite (truthy_nonempty _ Hname). simpl.
  destruct (env _ [] (Fetch (App.renameRequest api id (JS.trim newName))))
    as [e|res]; cbn [failureBanner].
  - destruct s; repeat split.
  - rewrite <- responseMessage_backendText. simpl in *. rewrite Hfail.
    destruct s; repeat split.
Qed.

Lemma failed_rename_keeps_edit_open_witness :
  let s := App.startEdit memo twoUploads in
  let result := run offline [] (App.updateName None "65f1" "draft" s) in
  fst result = setError (Some "Failed to fetch") s
  /\ uploads (fst result) = [memo; talk]
  /\ editingId (fst result) = Some "65f1"
  /\ editingName (fst result) = "memo.wav"
  /\ requests (snd result) = [App.renameRequest None "65f1" "draft"].
Proof.
  apply (failed_rename_keeps_edit_open None offline "65f1" "draft"
                                       (App.startEdit memo twoUploads)).
  - simpl. discriminate.
  - reflexivity.
Defined.

Lemma map_id_renamed (id trimmed : string) (l : list UploadItem) :
  map _id (map (renamed id trimmed) l) = map _id l.
Proof.
  induction l as [|u l IH]; simpl; [reflexivity|].
  rewrite IH. unfold renamed. destruct (String.eqb (_id u) id); reflexivity.
Qed.

Lemma map_renamed_absent (id trimmed : string) (l : list UploadItem) :
  (forall u, In u l -> _id u <> id) ->
  map (renamed id trimmed) l = l.
Proof.
  induction l as [|u l IH]; simpl; intro Habsent; [reflexivity|].
  rewrite IH by (intros v Hv; apply Habsent; right; exact Hv).
  unfold renamed.
  assert (Hneq : String.eqb (_id u) id = false)
    by (apply String.eqb_neq, Habsent; left; reflexivity).
  rewrite Hneq. reflexivity.
Qed.

(** X9.  A successful rename closes the edit form ([editingId] null,
    [editingName] empty), leaves the banner clear, and keeps the ids of
    the list, position by position; so a list whose ids are pairwise
    distinct stays so. *)
Theorem successful_rename_closes_edit
        (api : option string) (env : Env) (id newName : string) (s : State)
        (res : Response) :
  JS.trim newName <> "" ->
  env _ [] (Fetch (App.renameRequest api id (JS.trim newName))) = Responded res ->
  ok res = true ->
  let s' := fst (run env [] (App.updateName api id newName s)) in
  editingId s' = None
  /\ editingName s' = ""
  /\ error s' = None
  /\ map _id (uploads s') = map _id (uploads s)
  /\ (NoDup (map _id (uploads s)) -> NoDup (map _id (uploads s'))).
Proof.
  intros Hname Henv Hok s'. subst s'.
  rewrite (rename_success_run api env id newName s res Hname Henv Hok).
  cbn [fst].
  assert (Hids : map _id
                   (uploads
                      (setEditingName ""
                         (setEditingId None
                            (setUploads
                               (map (renamed id (JS.trim newName)) (uploads s))
                               (setError None s)))))
                 = map _id (uploads s)).
  { rewrite uploads_after_rename. apply map_id_renamed. }
  split; [state_eq s|]. split; [state_eq s|]. split; [state_eq s|].
  split; [exact Hids|]. intro Hnodup. rewrite Hids. exact Hnodup.
Qed.

Lemma successful_rename_closes_edit_witness :
  let s' :=
    fst (run (answering okEmpty) []
             (App.updateName None "65f1" "intro" (App.startEdit memo twoUploads))) in
  editingId s' = None
  /\ editingName s' = ""
  /\ error s' = None
  /\ map _id (uploads s') = ["65f1"; "65f2"]
  /\ (NoDup ["65f1"; "65f2"] -> NoDup (map _id (uploads s'))).
Proof.
  apply (successful_rename_closes_edit None (answering okEmpty) "65f1" "intro"
           (App.startEdit memo twoUploads) okEmpty).
  - simpl. discriminate.
  - reflexivity.
  - reflexivity.
Defined.

(* ================================================================= *)
(** ** Delete, in general *)

Lemma filter_split_length {A : Type} (p : A -> bool) (l : list A) :
  (List.length (filter (fun x => negb (p x)) l)
   + List.length (filter p l))%nat = List.length l.
Proof.
  induction l as [|x l IH]; simpl; [reflexivity|].
  destruct (p x); simpl; lia.
Qed.

(** Removing records keeps their ids pairwise distinct. *)
Lemma distinct_ids_after_filter (keep : UploadItem -> bool) :
  forall records : list UploadItem,
    NoDup (map _id records) -> NoDup (map _id (filter keep records)).
Proof.
  intro records. induction records as [|u rest IH]; simpl; intro Hdistinct.
  - constructor.
  - pose proof (NoDup_cons_iff (_id u) (map _id rest)) as Hcons.
    apply Hcons in Hdistinct as [Hfresh Hrest].
    destruct (keep u); simpl; [|exact (IH Hrest)].
    constructor; [|exact (IH Hrest)].
    intro Hin. apply Hfresh.
    apply in_map_iff in Hin as (v & Hid & Hv).
    apply filter_In in Hv as [Hv _].
    apply in_map_iff. exists v. split; assumption.
Qed.

(** X10.  A successful delete, whatever the number of records that carry
    the id: none of them remains, the list shrinks by their number, the
    records that remain keep pairwise distinct ids if they had them, and
    [deletingId] is null again. *)
Theorem successful_delete_removes_all
        (api : option string) (env : Env) (id : string) (s : State)
        (res : Response) :
  env _ [] (Fetch (App.deleteRequest api id)) = Responded res ->
  ok res = true ->
  let s' := fst (run env [] (App.deleteUpload api id s)) in
  (forall u, In u (uploads s') -> _id u <> id)
  /\ (List.length (uploads s')
      + List.length (filter (fun u => String.eqb (_id u) id) (uploads s)))%nat
     = List.length (uploads s)
  /\ (NoDup (map _id (uploads s)) -> NoDup (map _id (uploads s')))
  /\ deletingId s' = None
  /\ error s' = None.
Proof.
  intros Henv Hok s'. subst s'.
  rewrite (delete_success_run api env id s res Henv Hok). cbn [fst].
  rewrite uploads_after_delete.
  split; [|split; [|split; [|split]]].
  - intros v Hin. apply filter_In in Hin as [_ Hv].
    apply negb_true_iff, String.eqb_neq in Hv. exact Hv.
  - apply (filter_split_length (fun u => String.eqb (_id u) id)).
  - apply distinct_ids_after_filter.
  - state_eq s.
  - state_eq s.
Qed.

Lemma successful_delete_removes_all_witness :
  let twice := setUploads [memo; talk; memo] twoUploads in
  let s' := fst (run (answering okEmpty) [] (App.deleteUpload None "65f1" twice)) in
  (forall u, In u (uploads s') -> _id u <> "65f1")
  /\ (List.length (uploads s') + 2)%nat = 3%nat
  /\ (NoDup ["65f1"; "65f2"; "65f1"] -> NoDup (map _id (uploads s')))
  /\ deletingId s' = None
  /\ error s' = None.
Proof.
  apply (successful_delete_removes_all None (answering okEmpty) "65f1"
           (setUploads [memo; talk; memo] twoUploads) okEmpty);
    reflexivity.
Defined.

(** X11.  When a delete fails, the DELETE is the only request, the list
    is as it was, the banner is replaced and [deletingId] is null again:
    the state is the one the handler got but for these two fields. *)
Theorem failed_delete_keeps_list
        (api : option string) (env : Env) (id : string) (s : State) :
  failed (env _ [] (Fetch (App.deleteRequest api id))) = true ->
  let result := run env [] (App.deleteUpload api id s) in
  fst result
  = setDeletingId None
      (setError
         (Some (failureBanner "Delete failed" "Failed to delete"
                  (env _ [] (Fetch (App.deleteRequest api id)))))
         s)
  /\ uploads (fst result) = uploads s
  /\ requests (snd result) = [App.deleteRequest api id].
Proof.
  intros Hfail result. subst result. unfold App.deleteUpload. simpl.
  destruct (env _ [] (Fetch (App.deleteRequest api id))) as [e|res];
    cbn [failureBanner].
  - destruct s; repeat split.
  - rewrite <- responseMessage_backendText. simpl in *. rewrite Hfail.
    destruct s; repeat split.
Qed.

Lemma failed_delete_keeps_list_witness :
  let result := run offline [] (App.deleteUpload None "65f1" twoUploads) in
  fst result = setDeletingId None (setError (Some "Failed to fetch") twoUploads)
  /\ uploads (fst result) = [memo; talk]
  /\ requests (snd result) = [App.deleteRequest None "65f1"].
Proof.
  apply (failed_delete_keeps_list None offline "65f1" twoUploads).
  reflexivity.
Defined.

Lemma filter_absent (id : string) (l : list UploadItem) :
  (forall u, In u l -> _id u <> id) ->
  filter (fun u => negb (String.eqb (_id u) id)) l = l.
Proof.
  induction l as [|u l IH]; simpl; intro Habsent; [reflexivity|].
  assert (Hneq : String.eqb (_id u) id = false)
    by (apply String.eqb_neq, Habsent; left; reflexivity).
  rewrite Hneq. simpl. rewrite IH; [reflexivity|].
  intros v Hv. apply Habsent. right. exact Hv.
Qed.

(** X12.  An id that no record of the list carries: a successful rename
    and a successful delete of that id both leave the list exactly as it
    was, though each sends its request. *)
Theorem absent_id_leaves_list
        (api : option string) (env : Env) (id newName : string) (s : State)
        (res : Response) :
  (forall u, In u (uploads s) -> _id u <> id) ->
  ok res = true ->
  (JS.trim newName <> "" ->
   env _ [] (Fetch (App.renameRequest api id (JS.trim newName))) = Responded res ->
   uploads (fst (run env [] (App.updateName api id newName s))) = uploads s
   /\ requests (snd (run env [] (App.updateName api id newName s)))
      = [App.renameRequest api id (JS.trim newName)])
  /\ (env _ [] (Fetch (App.deleteRequest api id)) = Responded res ->
      uploads (fst (run env [] (App.deleteUpload api id s))) = uploads s
      /\ requests (snd (run env [] (App.deleteUpload api id s)))
         = [App.deleteRequest api id]).
Proof.
  intros Habsent Hok. split.
  - intros Hname Henv.
    rewrite (rename_success_run api env id newName s res Hname Henv Hok).
    cbn [fst snd]. rewrite uploads_after_rename.
    split; [apply map_renamed_absent; exact Habsent | reflexivity].
  - intro Henv.
    rewrite (delete_success_run api env id s res Henv Hok).
    cbn [fst snd]. rewrite uploads_after_delete.
    split; [apply filter_absent; exact Habsent | reflexivity].
Qed.

Lemma absent_id_leaves_list_witness :
  (uploads (fst (run (answering okEmpty) []
                     (App.updateName None "0000" "ghost" twoUploads)))
   = [memo; talk]
   /\ requests (snd (run (answering okEmpty) []
                         (App.updateName None "0000" "ghost" twoUploads)))
      = [App.renameRequest None "0000" "ghost"])
  /\ (uploads (fst (run (answering okEmpty) []
                        (App.deleteUpload None "0000" twoUploads)))
      = [memo; talk]
      /\ requests (snd (run (answering okEmpty) []
                            (App.deleteUpload None "0000" twoUploads)))
         = [App.deleteRequest None "0000"]).
Proof.
  assert (Habsent : forall u, In u (uploads twoUploads) -> _id u <> "0000").
  { simpl. intros u [<- | [<- | []]]; discriminate. }
  pose proof (absent_id_leaves_list None (answering okEmpty) "0000" "ghost"
                twoUploads okEmpty Habsent eq_refl) as [Hrename Hdelete].
  split.
  - apply Hrename; [simpl; discriminate | reflexivity].
  - apply Hdelete. reflexivity.
Defined.

(** X13.  Deleting the same id a second time changes nothing more: after
    a successful delete, a second successful delete of that id leaves the
    list as the first one left it. *)
Theorem delete_twice_is_delete_once
        (api : option string) (env env' : Env) (id : string) (s : State)
        (res res' : Response) :
  env _ [] (Fetch (App.deleteRequest api id)) = Responded res ->
  ok res = true ->
  env' _ [] (Fetch (App.deleteRequest api id)) = Responded res' ->
  ok res' = true ->
  let s1 := fst (run env [] (App.deleteUpload api id s)) in
  let s2 := fst (run env' [] (App.deleteUpload api id s1)) in
  uploads s2 = uploads s1.
Proof.
  intros Henv Hok Henv' Hok' s1 s2. subst s2.
  rewrite (delete_success_run api env' id s1 res' Henv' Hok'). cbn [fst].
  rewrite uploads_after_delete. apply filter_absent.
  subst s1. rewrite (delete_success_run api env id s res Henv Hok). cbn [fst].
  rewrite uploads_after_delete. intros u Hin.
  apply filter_In in Hin as [_ Hu].
  apply negb_true_iff, String.eqb_neq in Hu. exact Hu.
Qed.

Lemma delete_twice_is_delete_once_witness :
  let s1 := fst (run (answering okEmpty) [] (App.deleteUpload None "65f1" twoUploads)) in
  let s2 := fst (run (answering okEmpty) [] (App.deleteUpload None "65f1" s1)) in
  uploads s2 = uploads s1.
Proof.
  apply (delete_twice_is_delete_once None (answering okEmpty) (answering okEmpty)
           "65f1" twoUploads okEmpty okEmpty);
    reflexivity.
Defined.

(* ================================================================= *)
(** ** The controls of the rename form *)

Lemma editing_after_cancel (s : State) :
  editingId (App.cancelEdit s) = None
  /\ editingName (App.cancelEdit s) = ""
  /\ uploads (App.cancelEdit s) = uploads s
  /\ error (App.cancelEdit s) = error s.
Proof. destruct s; repeat split. Qed.

(** X14.  With a pending name that is blank, leaving the field closes
    the edit form without any request, whereas the "Save" button and the
    Enter key leave the form open as it is; the Escape key closes the
    form whatever the pending name. *)
Theorem blank_name_controls
        (api : option string) (env : Env) (past : list Event)
        (u : UploadItem) (s : State) :
  (forallb JS.isWhiteSpace (list_ascii_of_string (editingName s)) = true ->
   run env past (App.onBlur api u s) = (App.cancelEdit s, past)
   /\ editingId (App.cancelEdit s) = None
   /\ editingName (App.cancelEdit s) = ""
   /\ run env past (App.onSaveClick api u s) = (s, past)
   /\ run env past (App.onKeyDown api "Enter" u s) = (s, past))
  /\ run env past (App.onKeyDown api "Escape" u s) = (App.cancelEdit s, past).
Proof.
  split; [|reflexivity].
  intro Hblank.
  assert (Hnoop : App.updateName api (_id u) (editingName s) s = Ret s).
  { unfold App.updateName. rewrite (trim_blank _ Hblank). reflexivity. }
  destruct (editing_after_cancel s) as (Hid & Hname & _ & _).
  split; [|split; [exact Hid | split; [exact Hname | split]]].
  - unfold App.onBlur. rewrite (trim_blank _ Hblank). reflexivity.
  - unfold App.onSaveClick. rewrite Hnoop. reflexivity.
  - unfold App.onKeyDown. simpl. rewrite Hnoop. reflexivity.
Qed.

Lemma blank_name_controls_witness :
  let s := setEditingName "  " (App.startEdit memo twoUploads) in
  run offline [] (App.onBlur None memo s) = (App.cancelEdit s, [])
  /\ editingId (App.cancelEdit s) = None
  /\ editingName (App.cancelEdit s) = ""
  /\ run offline [] (App.onSaveClick None memo s) = (s, [])
  /\ run offline [] (App.onKeyDown None "Enter" memo s) = (s, []).
Proof.
  apply (proj1 (blank_name_controls None offline [] memo
                  (setEditingName "  " (App.startEdit memo twoUploads)))).
  reflexivity.
Defined.

Lemma editingName_after_startEdit (u : UploadItem) (s : State) :
  editingName (App.startEdit u s) = originalName u.
Proof. state_eq s. Qed.

(** X15.  Opening the rename form of a record and leaving the field
    without typing sends a PATCH all the same, with the trimmed current
    name, when that name is not blank: the handler does not compare the
    pending name with the stored one. *)
Theorem blur_submits_unchanged_name
        (api : option string) (env : Env) (u : UploadItem) (s : State) :
  JS.trim (originalName u) <> "" ->
  requests (snd (run env [] (App.onBlur api u (App.startEdit u s))))
  = [App.renameRequest api (_id u) (JS.trim (originalName u))].
Proof.
  intro Hname. unfold App.onBlur, App.updateName.
  rewrite editingName_after_startEdit, (truthy_nonempty _ Hname).
  reflexivity.
Qed.

Lemma blur_submits_unchanged_name_witness :
  requests (snd (run offline [] (App.onBlur None memo (App.startEdit memo twoUploads))))
  = [App.renameRequest None "65f1" "memo.wav"].
Proof.
  apply (blur_submits_unchanged_name None offline memo twoUploads).
  simpl. discriminate.
Defined.

(* ================================================================= *)
(** ** The recorder *)

Lemma requests_run_noFetch {A : Type} (env : Env) (p : Prog A) :
  noFetch p ->
  forall past, requests (snd (run env past p)) = requests past.
Proof.
  induction p as [a | X e k IH]; simpl; intros Hno past.
  - reflexivity.
  - destruct Hno as [He Hk]. rewrite (IH _ (Hk _)), requests_app.
    simpl. destruct e; try contradiction; simpl; apply app_nil_r.
Qed.

Lemma noFetch_bind {A B : Type} (p : Prog A) (f : A -> Prog B) :
  noFetch p -> (forall a, noFetch (f a)) -> noFetch (bind p f).
Proof.
  induction p as [a | X e k IH]; simpl; intros Hp Hf.
  - apply Hf.
  - destruct Hp as [He Hk]. split; [exact He|].
    intro x. apply IH; [apply Hk | exact Hf].
Qed.

Lemma noFetch_revokeIfSet (o : option string) : noFetch (revokeIfSet o).
Proof.
  unfold revokeIfSet. destruct (whenTruthy o); simpl; auto.
Qed.

Lemma noFetch_stopTracks (ts : list N) : noFetch (stopTracks ts).
Proof.
  induction ts as [|t ts IH]; simpl; auto.
Qed.

Lemma noFetch_startRecording (s : State) : noFetch (App.startRecording s).
Proof.
  unfold App.startRecording.
  apply noFetch_bind; [apply noFetch_revokeIfSet|]. intros _.
  simpl. split; [exact I|]. intros [|]; simpl; [|exact I].
  split; [exact I|]. intros [e|stream]; simpl; [exact I|].
  split; [exact I|]. intros [e|mime]; simpl; [exact I|].
  split; [exact I|]. intros [e|]; simpl; exact I.
Qed.

Lemma noFetch_stopRecording (s : State) : noFetch (App.stopRecording s).
Proof.
  unfold App.stopRecording.
  apply noFetch_bind.
  - destruct (mediaRecorderRef s); simpl; [|exact I].
    split; [exact I|]. intros [| |]; simpl; auto.
  - intros _. apply noFetch_bind.
    + destruct (streamRef s); [apply noFetch_stopTracks | exact I].
    + intros _. exact I.
Qed.

Lemma noFetch_onstop (recorder : MediaRecorder) (s : State) :
  noFetch (App.onstop recorder s) /\ noFetch (LegacyApp.onstop recorder s).
Proof.
  split.
  - unfold App.onstop.
    apply noFetch_bind; [apply noFetch_revokeIfSet|]. intros _.
    simpl. repeat (split; [exact I|]; intros ?). exact I.
  - unfold LegacyApp.onstop. simpl.
    repeat (split; [exact I|]; intros ?). exact I.
Qed.

Lemma noFetch_recordingCleanup (s : State) : noFetch (App.recordingCleanup s).
Proof.
  unfold App.recordingCleanup.
  apply noFetch_bind; [apply noFetch_revokeIfSet|]. intros _.
  destruct (streamRef s); [apply noFetch_stopTracks | exact I].
Qed.

Lemma noFetch_saveTranscription (u : UploadItem) :
  noFetch (App.saveTranscription u).
Proof.
  unfold App.saveTranscription.
  destruct (whenTruthy (transcription u)); simpl; auto.
Qed.

(** X16.  Recording and exporting are local: starting and stopping a
    recording, the [onstop] handler of both revisions, the cleanup of the
    preview and saving a transcription issue no network request, whatever
    the environment answers. *)
Theorem recorder_and_export_are_local
        (env : Env) (past : list Event) (s : State)
        (recorder : MediaRecorder) (u : UploadItem) :
  requests (snd (run env past (App.startRecording s))) = requests past
  /\ requests (snd (run env past (App.stopRecording s))) = requests past
  /\ requests (snd (run env past (App.onstop recorder s))) = requests past
  /\ requests (snd (run env past (LegacyApp.onstop recorder s))) = requests past
  /\ requests (snd (run env past (App.recordingCleanup s))) = requests past
  /\ requests (snd (run env past (App.saveTranscription u))) = requests past.
Proof.
  repeat split; apply requests_run_noFetch.
  - apply noFetch_startRecording.
  - apply noFetch_stopRecording.
  - apply noFetch_onstop.
  - apply noFetch_onstop.
  - apply noFetch_recordingCleanup.
  - apply noFetch_saveTranscription.
Qed.

Lemma revokedUrls_app (a b : list Event) :
  revokedUrls (a ++ b) = (revokedUrls a ++ revokedUrls b)%list.
Proof.
  induction a as [|[X e x] a IH]; simpl.
  - reflexivity.
  - destruct e; simpl; rewrite IH; reflexivity.
Qed.

Lemma stoppedTracks_app (a b : list Event) :
  stoppedTracks (a ++ b) = (stoppedTracks a ++ stoppedTracks b)%list.
Proof.
  induction a as [|[X e x] a IH]; simpl.
  - reflexivity.
  - destruct e; simpl; rewrite IH; reflexivity.
Qed.

(** X17.  Whatever happens next, [startRecording] first discards the
    previous recording: the preview URL, when there is one, is revoked,
    and in every outcome [recordedFile] and [recordingUrl] end up
    null. *)
Theorem startRecording_discards_previous (env : Env) (s : State) :
  let result := run env [] (App.startRecording s) in
  recordedFile (fst result) = None
  /\ recordingUrl (fst result) = None
  /\ revokedUrls (snd result)
     = match whenTruthy (recordingUrl s) with
       | Some u => [u]
       | None => []
       end.
Proof.
  unfold App.startRecording, revokeIfSet.
  destruct (whenTruthy (recordingUrl s)) as [u|]; simpl;
    repeat match goal with
      | |- context [env ?X ?p ?e] => destruct (env X p e); simpl
      end;
    destruct s; repeat split.
Qed.

(** X18.  When the browser has no [MediaRecorder], the banner says so and
    the microphone is never asked for; when the microphone is refused,
    the banner is the message of the refusal (or "Could not access
    microphone.").  In both cases nothing else changes but the discarded
    recording: [isRecording], the stream and the recorder are as
    before. *)
Theorem startRecording_stays_idle (env : Env) (s : State) (e : Thrown) :
  ((forall past, env _ past HasMediaRecorder = false) ->
   fst (run env [] (App.startRecording s))
   = setError (Some "Recording not supported. Try Chrome or Firefox.")
       (setRecordingUrl None (setRecordedFile None s))
   /\ asksMicrophone (snd (run env [] (App.startRecording s))) = false)
  /\ ((forall past, env _ past HasMediaRecorder = true) ->
      (forall past, env _ past GetUserMedia = inl e) ->
      fst (run env [] (App.startRecording s))
      = setError (Some (messageOf e "Could not access microphone."))
          (setRecordingUrl None (setRecordedFile None s))).
Proof.
  split.
  - intro Hsupport. unfold App.startRecording, revokeIfSet.
    destruct (whenTruthy (recordingUrl s)) as [u|]; simpl;
      rewrite Hsupport; simpl; split; try reflexivity; state_eq s.
  - intros Hsupport Hmic. unfold App.startRecording, revokeIfSet.
    destruct (whenTruthy (recordingUrl s)) as [u|]; simpl;
      rewrite Hsupport; simpl; rewrite Hmic; simpl; state_eq s.
Qed.

Lemma startRecording_stays_idle_witness :
  (fst (run (recorderEnv false (inr micStream) (inr "audio/webm") None Recording)
            [] (App.startRecording previewState))
   = setError (Some "Recording not supported. Try Chrome or Firefox.")
       (setRecordingUrl None (setRecordedFile None previewState))
   /\ asksMicrophone
        (snd (run (recorderEnv false (inr micStream) (inr "audio/webm") None
                               Recording)
                  [] (App.startRecording previewState)))
      = false)
  /\ fst (run (recorderEnv true (inl (ErrorObject "Permission denied"))
                           (inr "audio/webm") None Recording)
              [] (App.startRecording previewState))
     = setError (Some "Permission denied")
         (setRecordingUrl None (setRecordedFile None previewState)).
Proof.
  split.
  - apply (proj1 (startRecording_stays_idle
                    (recorderEnv false (inr micStream) (inr "audio/webm") None
                                 Recording)
                    previewState NotAnError)).
    reflexivity.
  - apply (proj2 (startRecording_stays_idle
                    (recorderEnv true (inl (ErrorObject "Permission denied"))
                                 (inr "audio/webm") None Recording)
                    previewState (ErrorObject "Permission denied")));
      reflexivity.
Defined.

(** X19.  When the microphone is granted and the recorder is created and
    started, [startRecording] ends recording: [isRecording] is true, the
    chunks are empty, the stream and the recorder are stored, and the
    banner is clear. *)
Theorem startRecording_success
        (env : Env) (s : State) (stream : MediaStream) (mime : string) :
  (forall past, env _ past HasMediaRecorder = true) ->
  (forall past, env _ past GetUserMedia = inr stream) ->
  (forall past, env _ past (NewMediaRecorder stream) = inr mime) ->
  (forall past, env _ past RecorderStart = None) ->
  let s' := fst (run env [] (App.startRecording s)) in
  isRecording s' = true
  /\ chunksRef s' = []
  /\ streamRef s' = Some stream
  /\ mediaRecorderRef s'
     = Some {| recorderMimeType := mime;
               capturedRecordingUrl := recordingUrl s |}
  /\ error s' = None
  /\ uploads s' = uploads s.
Proof.
  intros Hsupport Hmic Hmade Hstart s'. subst s'.
  unfold App.startRecording, revokeIfSet.
  destruct (whenTruthy (recordingUrl s)) as [u|]; simpl;
    rewrite Hsupport; simpl; rewrite Hmic; simpl; rewrite Hmade; simpl;
    rewrite Hstart; simpl; destruct s; repeat split.
Qed.

Lemma startRecording_success_witness :
  let s' :=
    fst (run (recorderEnv true (inr micStream) (inr "audio/ogg") None Recording)
             [] (App.startRecording previewState)) in
  isRecording s' = true
  /\ chunksRef s' = []
  /\ streamRef s' = Some micStream
  /\ mediaRecorderRef s'
     = Some {| recorderMimeType := "audio/ogg";
               capturedRecordingUrl := Some "blob:old" |}
  /\ error s' = None
  /\ uploads s' = [memo; talk].
Proof.
  apply (startRecording_success
           (recorderEnv true (inr micStream) (inr "audio/ogg") None Recording)
           previewState micStream "audio/ogg");
    reflexivity.
Defined.

(** X20.  When the microphone was granted but the recorder cannot be
    created, or cannot be started, the handler only sets the banner: the
    stream stays in [streamRef], none of its tracks is stopped, and
    [isRecording] is as before. *)
Theorem startRecording_keeps_stream_on_failure
        (env : Env) (s : State) (stream : MediaStream) (e : Thrown) :
  (forall past, env _ past HasMediaRecorder = true) ->
  (forall past, env _ past GetUserMedia = inr stream) ->
  (forall past, env _ past (NewMediaRecorder stream) = inl e)
  \/ (exists mime,
        (forall past, env _ past (NewMediaRecorder stream) = inr mime)
        /\ (forall past, env _ past RecorderStart = Some e)) ->
  let result := run env [] (App.startRecording s) in
  streamRef (fst result) = Some stream
  /\ stoppedTracks (snd result) = []
  /\ isRecording (fst result) = isRecording s
  /\ error (fst result) = Some (messageOf e "Could not access microphone.").
Proof.
  intros Hsupport Hmic Hfail result. subst result.
  unfold App.startRecording, revokeIfSet.
  destruct Hfail as [Hmade | (mime & Hmade & Hstart)];
    destruct (whenTruthy (recordingUrl s)) as [u|]; simpl;
    rewrite Hsupport; simpl; rewrite Hmic; simpl; rewrite Hmade; simpl;
    try (rewrite Hstart; simpl); destruct s; repeat split.
Qed.

Lemma startRecording_keeps_stream_on_failure_witness :
  let result :=
    run (recorderEnv true (inr micStream)
                     (inl (ErrorObject "NotSupportedError")) None Inactive)
        [] (App.startRecording twoUploads) in
  streamRef (fst result) = Some micStream
  /\ stoppedTracks (snd result) = []
  /\ isRecording (fst result) = false
  /\ error (fst result) = Some "NotSupportedError".
Proof.
  apply (startRecording_keeps_stream_on_failure
           (recorderEnv true (inr micStream)
                        (inl (ErrorObject "NotSupportedError")) None Inactive)
           twoUploads micStream (ErrorObject "NotSupportedError")).
  - reflexivity.
  - reflexivity.
  - left. reflexivity.
Defined.

(* ----------------------------------------------------------------- *)
(** *** Gathering the chunks *)

Lemma totalSize_app (a b : list Blob) :
  totalSize (a ++ b) = (totalSize a + totalSize b)%N.
Proof.
  induction a as [|x a IH]; simpl; [reflexivity|].
  unfold totalSize in *. simpl. rewrite IH. lia.
Qed.

Lemma totalSize_kept (datas : list Blob) :
  totalSize (keptChunks datas) = totalSize datas.
Proof.
  induction datas as [|d datas IH]; simpl; [reflexivity|].
  destruct (blobSize d =? 0)%N eqn:Hzero; simpl.
  - apply N.eqb_eq in Hzero. unfold totalSize in *. simpl.
    rewrite IH, Hzero. reflexivity.
  - unfold totalSize in *. simpl. rewrite IH. reflexivity.
Qed.

Lemma legacy_ondataavailable_same (d : Blob) (s : State) :
  LegacyApp.ondataavailable d s = App.ondataavailable d s.
Proof.
  unfold LegacyApp.ondataavailable, App.ondataavailable.
  destruct (blobSize d); reflexivity.
Qed.

Lemma feed_chunks (datas : list Blob) :
  forall s,
    feed datas s = setChunksRef (chunksRef s ++ keptChunks datas)%list s.
Proof.
  induction datas as [|d datas IH]; intro s; simpl.
  - rewrite app_nil_r. state_eq s.
  - unfold feed in *. simpl. rewrite IH. unfold App.ondataavailable.
    destruct (blobSize d =? 0)%N; simpl.
    + reflexivity.
    + destruct s; simpl. rewrite <- app_assoc. reflexivity.
Qed.

Lemma legacyFeed_same (datas : list Blob) :
  forall s, legacyFeed datas s = feed datas s.
Proof.
  induction datas as [|d datas IH]; intro s; [reflexivity|].
  unfold legacyFeed, feed in *. simpl.
  rewrite legacy_ondataavailable_same. apply IH.
Qed.

(** X21.  In both revisions a sequence of [dataavailable] events appends
    to the chunks, in the order of arrival, exactly the data of non-zero
    size, and changes nothing else in the state. *)
Theorem chunks_accumulate_in_order (datas : list Blob) (s : State) :
  feed datas s
  = setChunksRef
      (chunksRef s ++ filter (fun d => negb (blobSize d =? 0)%N) datas)%list s
  /\ legacyFeed datas s = feed datas s.
Proof.
  split; [apply feed_chunks | apply legacyFeed_same].
Qed.

(* ----------------------------------------------------------------- *)
(** *** Finalizing the recording *)

Lemma lowerChar_facts (c : ascii) :
  JS.lowerChar (JS.lowerChar c) = JS.lowerChar c
  /\ (printable c = true -> printable (JS.lowerChar c) = true).
Proof.
  destruct c as [[] [] [] [] [] [] [] []]; vm_compute; split; auto.
Qed.

Lemma toLowerCase_idempotent (t : string) :
  JS.toLowerCase (JS.toLowerCase t) = JS.toLowerCase t.
Proof.
  induction t as [|c t IH]; simpl; [reflexivity|].
  rewrite IH, (proj1 (lowerChar_facts c)). reflexivity.
Qed.

Lemma toLowerCase_printable (t : string) :
  forallb printable (list_ascii_of_string t) = true ->
  forallb printable (list_ascii_of_string (JS.toLowerCase t)) = true.
Proof.
  induction t as [|c t IH]; simpl; intro H; [reflexivity|].
  apply andb_true_iff in H as [Hc Ht].
  rewrite (proj2 (lowerChar_facts c) Hc), (IH Ht). reflexivity.
Qed.

Lemma normalizeType_idempotent (t : string) :
  normalizeType (normalizeType t) = normalizeType t.
Proof.
  unfold normalizeType.
  destruct (forallb printable (list_ascii_of_string t)) eqn:Hp.
  - rewrite (toLowerCase_printable t Hp). apply toLowerCase_idempotent.
  - reflexivity.
Qed.

Lemma onstop_result
      (env : Env) (past : list Event) (recorder : MediaRecorder) (s : State) :
  exists link file,
    fst (run env past (App.onstop recorder s))
    = setRecordedFile (Some file) (setRecordingUrl (Some link) s)
    /\ fileSize file = totalSize (chunksRef s)
    /\ fileType file = finalType recorder s
    /\ revokedUrls (snd (run env past (App.onstop recorder s)))
       = (revokedUrls past
            ++ match whenTruthy (capturedRecordingUrl recorder) with
               | Some old => [old]
               | None => []
               end)%list.
Proof.
  unfold App.onstop, revokeIfSet.
  destruct (whenTruthy (capturedRecordingUrl recorder)) as [old|]; simpl;
    eexists; eexists;
    (split; [reflexivity|]); (split; [reflexivity|]);
    (split; [apply normalizeType_idempotent|]);
    rewrite <- !app_assoc, revokedUrls_app; simpl;
    try rewrite app_nil_r; reflexivity.
Qed.

Lemma legacy_onstop_result
      (env : Env) (past : list Event) (recorder : MediaRecorder) (s : State) :
  exists link file,
    fst (run env past (LegacyApp.onstop recorder s))
    = setRecordedFile (Some file) (setRecordingUrl (Some link) s)
    /\ fileSize file = totalSize (chunksRef s)
    /\ fileType file = finalType recorder s
    /\ revokedUrls (snd (run env past (LegacyApp.onstop recorder s)))
       = revokedUrls past.
Proof.
  unfold LegacyApp.onstop. simpl.
  eexists; eexists;
    (split; [reflexivity|]); (split; [reflexivity|]);
    (split; [apply normalizeType_idempotent|]).
  rewrite <- !app_assoc, revokedUrls_app; simpl.
  rewrite app_nil_r. reflexivity.
Qed.

(** X22.  In both revisions the [onstop] handler changes nothing but
    [recordingUrl] and [recordedFile]: it stores a preview URL and a file
    whose size is the total size of the chunks gathered and whose type is
    the type of the finalized blob.  The current revision revokes, before
    that, the preview URL of the render that started the recording, if
    there was one; the earlier revision revokes nothing. *)
Theorem onstop_builds_file_from_chunks
        (env : Env) (past : list Event) (recorder : MediaRecorder) (s : State) :
  (exists link file,
      fst (run env past (App.onstop recorder s))
      = setRecordedFile (Some file) (setRecordingUrl (Some link) s)
      /\ fileSize file = totalSize (chunksRef s)
      /\ fileType file = finalType recorder s
      /\ revokedUrls (snd (run env past (App.onstop recorder s)))
         = (revokedUrls past
              ++ match whenTruthy (capturedRecordingUrl recorder) with
                 | Some old => [old]
                 | None => []
                 end)%list)
  /\ (exists link file,
         fst (run env past (LegacyApp.onstop recorder s))
         = setRecordedFile (Some file) (setRecordingUrl (Some link) s)
         /\ fileSize file = totalSize (chunksRef s)
         /\ fileType file = finalType recorder s
         /\ revokedUrls (snd (run env past (LegacyApp.onstop recorder s)))
            = revokedUrls past).
Proof.
  split; [apply onstop_result | apply legacy_onstop_result].
Qed.

Lemma chunksRef_feed_fresh (datas : list Blob) (s : State) :
  chunksRef (feed datas (setChunksRef [] s)) = keptChunks datas.
Proof. rewrite feed_chunks. destruct s; reflexivity. Qed.

(** X23.  A whole recording: from empty chunks, after any sequence of
    [dataavailable] events, [onstop] stores a file whose size is the
    total size of the data delivered; with no data at all it still stores
    a file, of size zero. *)
Theorem recorded_file_holds_all_data
        (env : Env) (past : list Event) (recorder : MediaRecorder)
        (datas : list Blob) (s : State) :
  let started := setChunksRef [] s in
  (exists file,
      recordedFile (fst (run env past (App.onstop recorder (feed datas started))))
      = Some file
      /\ fileSize file = totalSize datas)
  /\ (exists file,
         recordedFile (fst (run env past (App.onstop recorder started)))
         = Some file
         /\ fileSize file = 0%N).
Proof.
  intro started. subst started. split.
  - destruct (onstop_result env past recorder (feed datas (setChunksRef [] s)))
      as (link & file & Hstate & Hsize & _ & _).
    exists file. rewrite Hstate, recordedFile_set. split; [reflexivity|].
    rewrite Hsize, chunksRef_feed_fresh. apply totalSize_kept.
  - destruct (onstop_result env past recorder (setChunksRef [] s))
      as (link & file & Hstate & Hsize & _ & _).
    exists file. rewrite Hstate, recordedFile_set. split; [reflexivity|].
    rewrite Hsize. destruct s; reflexivity.
Qed.

Lemma orElse_nonempty (a b : string) : a <> "" -> JS.orElse a b = a.
Proof. destruct a; [congruence | reflexivity]. Qed.

(** X24.  The file [onstop] stores passes the validator whenever the
    chunks total at most 25 * 1024 * 1024 bytes and the recorder reports
    no type, or a type of printable ASCII characters that starts with
    "audio/" in any letter case.  When the reported type has a character
    outside printable ASCII the file has an empty type and the validator
    rejects it as of unknown type. *)
Theorem recorded_file_validity
        (env : Env) (past : list Event) (recorder : MediaRecorder) (s : State)
        (file : File) :
  recordedFile (fst (run env past (App.onstop recorder s))) = Some file ->
  ((recorderMimeType recorder = ""
    \/ (forallb printable (list_ascii_of_string (recorderMimeType recorder))
        = true
        /\ JS.startsWith "audio/" (JS.toLowerCase (recorderMimeType recorder))
           = true)) ->
   (totalSize (chunksRef s) <= 26214400)%N ->
   App.isValidAudioFile file = App.Valid)
  /\ (forallb printable (list_ascii_of_string (recorderMimeType recorder))
      = false ->
      App.isValidAudioFile file
      = App.Invalid
          "Invalid file type: unknown. Use audio files (e.g. MP3, WAV, WebM).").
Proof.
  intro Hfile.
  destruct (onstop_result env past recorder s)
    as (link & file' & Hstate & Hsize & Htype & _).
  rewrite Hstate, recordedFile_set in Hfile. injection Hfile as <-.
  unfold finalType, newBlob in Htype. cbn [blobType] in Htype.
  split.
  - intros Hmime Htotal.
    apply allowed_within_limit_is_valid; [|rewrite Hsize; exact Htotal].
    rewrite Htype. unfold App.isAllowed.
    destruct Hmime as [Hempty | [Hprintable Hprefix]].
    + rewrite Hempty. reflexivity.
    + destruct (recorderMimeType recorder) as [|c t] eqn:Hmime;
        [discriminate Hprefix|].
      rewrite orElse_nonempty by discriminate.
      unfold normalizeType. rewrite Hprintable.
      rewrite toLowerCase_idempotent, Hprefix. reflexivity.
  - intro Hbad.
    destruct (recorderMimeType recorder) as [|c t] eqn:Hmime;
      [discriminate Hbad|].
    rewrite orElse_nonempty in Htype by discriminate.
    unfold normalizeType in Htype. rewrite Hbad in Htype.
    unfold App.isValidAudioFile, App.typeMessage. rewrite Htype. reflexivity.
Qed.

Lemma recorded_file_validity_witness :
  App.isValidAudioFile
    {| fileRef := 1; fileName := "recording-1700000000000.webm";
       fileType := "audio/webm;codecs=opus"; fileSize := 512 |}
  = App.Valid.
Proof.
  apply (proj1 (recorded_file_validity offline []
                  {| recorderMimeType := "Audio/WebM;codecs=opus";
                     capturedRecordingUrl := None |}
                  (feed [chunkA; chunkB; chunkC] (setChunksRef [] twoUploads))
                  _ eq_refl)).
  - right. split; reflexivity.
  - vm_compute. discriminate.
Defined.

(* ----------------------------------------------------------------- *)
(** *** Stopping *)

Lemma stopsRecorder_app (a b : list Event) :
  stopsRecorder (a ++ b) = stopsRecorder a || stopsRecorder b.
Proof.
  induction a as [|[X e x] a IH]; simpl.
  - reflexivity.
  - destruct e; simpl; auto.
Qed.

Lemma run_stopTracks (env : Env) (ts : list N) :
  forall past,
    stoppedTracks (snd (run env past (stopTracks ts)))
    = (stoppedTracks past ++ ts)%list
    /\ stopsRecorder (snd (run env past (stopTracks ts))) = stopsRecorder past.
Proof.
  induction ts as [|t ts IH]; intro past; simpl.
  - rewrite app_nil_r. split; reflexivity.
  - destruct (IH (past ++ [Performed (StopTrack t) (env _ past (StopTrack t))])%list)
      as [Htracks Hstop].
    rewrite Htracks, Hstop, stoppedTracks_app, stopsRecorder_app. simpl.
    rewrite <- app_assoc, orb_false_r. split; reflexivity.
Qed.

(** X25.  [stopRecording] stops every track of the stream it holds, in
    order, whether or not a recorder exists and whatever its state; it
    ends with [isRecording] false and [streamRef] null and touches nothing
    else.  The recorder is told to stop exactly when one exists and it is
    not inactive. *)
Theorem stopRecording_releases_stream (env : Env) (s : State) :
  let result := run env [] (App.stopRecording s) in
  fst result = setStreamRef None (setIsRecording false s)
  /\ stoppedTracks (snd result)
     = match streamRef s with
       | Some stream => tracks stream
       | None => []
       end
  /\ stopsRecorder (snd result)
     = match mediaRecorderRef s with
       | Some _ =>
           match env _ [] RecorderState with
           | Inactive => false
           | _ => true
           end
       | None => false
       end.
Proof.
  unfold App.stopRecording.
  destruct (mediaRecorderRef s) as [recorder|]; simpl.
  - destruct (env _ [] RecorderState); simpl;
      (destruct (streamRef s) as [stream|]; simpl;
       [ rewrite !run_bind;
         match goal with
         | |- context [run env ?p (stopTracks ?ts)] =>
             destruct (run_stopTracks env ts p) as [Htracks Hstop]
         end;
         cbn [fst snd run]; rewrite Htracks, Hstop; repeat split
       | repeat split ]).
  - destruct (streamRef s) as [stream|]; simpl.
    + rewrite !run_bind.
      destruct (run_stopTracks env (tracks stream) []) as [Htracks Hstop].
      cbn [fst snd run]. rewrite Htracks, Hstop. repeat split.
    + repeat split.
Qed.

(* ================================================================= *)
(** ** Saving a transcription *)

Lemma isSafeChar_underscore : App.isSafeChar "_" = true.
Proof. reflexivity. Qed.






(** X27.  [saveTranscription] does nothing at all for a record whose
    transcription is null or the empty text.  Otherwise it creates one
    object URL, for a "text/plain;charset=utf-8" blob as long as the text
    in UTF-8, clicks an anchor with that URL and the sanitized file name,
    and that URL is the one URL it revokes. *)
Theorem saveTranscription_behaviour
        (env : Env) (past : list Event) (u : UploadItem) :
  (transcription u = None \/ transcription u = Some "" ->
   run env past (App.saveTranscription u) = (None, past))
  /\ (forall text,
        transcription u = Some text -> text <> "" ->
        let blob :=
          {| blobType := "text/plain;charset=utf-8";
             blobSize := App.utf8Length text |} in
        let link := env _ past (CreateObjectURL blob) in
        fst (run env past (App.saveTranscription u))
        = Some {| App.href := link;
                  App.download := App.transcriptionFilename u |}
        /\ snd (run env past (App.saveTranscription u))
           = (past ++ [Performed (CreateObjectURL blob) link;
                       Performed (RevokeObjectURL link)
                         (env _ (past ++ [Performed (CreateObjectURL blob) link])%list
                              (RevokeObjectURL link))])%list).
Proof.
  split.
  - intros [Hnone | Hempty]; unfold App.saveTranscription.
    + rewrite Hnone. reflexivity.
    + rewrite Hempty. reflexivity.
  - intros text Htext Hnonempty blob link. subst link blob.
    unfold App.saveTranscription. rewrite Htext. simpl whenTruthy.
    rewrite (truthy_nonempty _ Hnonempty). simpl.
    rewrite <- app_assoc. split; reflexivity.
Qed.

Lemma saveTranscription_behaviour_witness :
  run offline [] (App.saveTranscription memo) = (None, [])
  /\ fst (run offline [] (App.saveTranscription talk))
     = Some {| App.href := "blob:preview";
               App.download := "talk.webm-65f2.txt" |}
  /\ revokedUrls (snd (run offline [] (App.saveTranscription talk)))
     = ["blob:preview"].
Proof.
  pose proof (saveTranscription_behaviour offline [] memo) as [Hnone _].
  pose proof (saveTranscription_behaviour offline [] talk) as [_ Hsome].
  split; [apply Hnone; left; reflexivity|].
  destruct (Hsome "hello" eq_refl ltac:(discriminate)) as [Hanchor Htrace].
  split.
  - rewrite Hanchor. reflexivity.
  - rewrite Htrace. reflexivity.
Defined.

(* ================================================================= *)
(** ** The base address *)

Lemma stripTrailingSlash_added (b : string) :
  stripTrailingSlash (b ++ "/") = b.
Proof.
  induction b as [|c b IH]; [reflexivity|].
  destruct b as [|d b]; [reflexivity|].
  cbn [append] in IH |- *.
  change (stripTrailingSlash (String c (String d (b ++ "/"))))
    with (String c (stripTrailingSlash (String d (b ++ "/")))).
  rewrite IH. reflexivity.
Qed.

Lemma stripTrailingSlash_none (b : string) :
  noTrailingSlash b = true -> stripTrailingSlash b = b.
Proof.
  induction b as [|c b IH]; [reflexivity|].
  simpl. destruct b as [|d b].
  - intro H. apply negb_true_iff in H. rewrite H. reflexivity.
  - intro H. rewrite (IH H). reflexivity.
Qed.

(** X28.  One slash at the end of the configured address is dropped, so
    an address written with or without it gives the same requests; with
    no address configured the requests go to the relative path
    "/api/uploads". *)
Theorem base_address_trailing_slash (b : string) :
  App.API_BASE (Some (b ++ "/")) = b
  /\ (noTrailingSlash b = true ->
      App.API_BASE (Some b) = b
      /\ App.listRequest (Some (b ++ "/")) = App.listRequest (Some b)
      /\ forall id,
           App.deleteRequest (Some (b ++ "/")) id = App.deleteRequest (Some b) id)
  /\ target (App.listRequest None) = "/api/uploads".
Proof.
  assert (Hslash : App.API_BASE (Some (b ++ "/")) = b).
  { unfold App.API_BASE. simpl JS.orDefault.
    rewrite orElse_empty. apply stripTrailingSlash_added. }
  split; [exact Hslash|]. split; [|reflexivity].
  intro Hno.
  assert (Hplain : App.API_BASE (Some b) = b).
  { unfold App.API_BASE. simpl JS.orDefault.
    rewrite orElse_empty. apply stripTrailingSlash_none. exact Hno. }
  split; [exact Hplain|].
  unfold App.listRequest, App.deleteRequest. rewrite Hslash, Hplain.
  split; [reflexivity | intro id; reflexivity].
Qed.

Lemma base_address_trailing_slash_witness :
  App.API_BASE (Some "https://api.example.org")
  = "https://api.example.org"
  /\ App.listRequest (Some "https://api.example.org/")
     = App.listRequest (Some "https://api.example.org")
  /\ forall id,
       App.deleteRequest (Some "https://api.example.org/") id
       = App.deleteRequest (Some "https://api.example.org") id.
Proof.
  apply (proj1 (proj2 (base_address_trailing_slash "https://api.example.org"))).
  reflexivity.
Defined.

(* ================================================================= *)
(** ** Uploading the recording, and cleaning up *)

Lemma isRecordedFile_self (file : File) :
  App.isRecordedFile file (Some file) = true.
Proof. apply N.eqb_refl. Qed.

Lemma recording_cleared (s : State) :
  recordedFile (setIsUploading false (setRecordedFile None (setRecordingUrl None s)))
  = None
  /\ recordingUrl (setIsUploading false
                     (setRecordedFile None (setRecordingUrl None s)))
     = None
  /\ App.canUploadRecorded
       (setIsUploading false (setRecordedFile None (setRecordingUrl None s)))
     = false.
Proof. destruct s; repeat split. Qed.

(** X29.  The "Upload recording" button does nothing when no recording
    is pending.  When the pending recording passes the validator and its
    POST is answered with an [ok] response, the recording and its preview
    are gone afterwards and the button is disabled, so the same recording
    cannot be sent twice. *)
Theorem upload_recording_click
        (api : option string) (env : Env) (s : State) :
  (recordedFile s = None ->
   run env [] (App.onUploadRecordingClick api s) = (s, [])
   /\ App.canUploadRecorded s = false)
  /\ (forall file res,
        recordedFile s = Some file ->
        App.isValidAudioFile file = App.Valid ->
        env _ [] (Fetch (App.uploadRequest api file)) = Responded res ->
        ok res = true ->
        let s' := fst (run env [] (App.onUploadRecordingClick api s)) in
        recordedFile s' = None
        /\ recordingUrl s' = None
        /\ App.canUploadRecorded s' = false).
Proof.
  split.
  - intro Hnone. unfold App.onUploadRecordingClick, App.canUploadRecorded.
    rewrite Hnone. split; reflexivity.
  - intros file res Hfile Hvalid Henv Hok s'. subst s'.
    unfold App.onUploadRecordingClick. rewrite Hfile.
    destruct (upload_success_shape api env file s res Hvalid Henv Hok)
      as (_ & Hrecorded & _).
    rewrite Hfile in Hrecorded.
    destruct (Hrecorded (isRecordedFile_self file)) as [Hstate _].
    rewrite Hstate. apply recording_cleared.
Qed.

Lemma upload_recording_click_witness :
  (run offline [] (App.onUploadRecordingClick None twoUploads) = (twoUploads, [])
   /\ App.canUploadRecorded twoUploads = false)
  /\ (let s' :=
        fst (run (answering okEmpty) []
                 (App.onUploadRecordingClick None previewState)) in
      recordedFile s' = None
      /\ recordingUrl s' = None
      /\ App.canUploadRecorded s' = false).
Proof.
  split.
  - apply (proj1 (upload_recording_click None offline twoUploads)).
    reflexivity.
  - apply (proj2 (upload_recording_click None (answering okEmpty) previewState)
             wavFile okEmpty);
      reflexivity.
Defined.

(** X30.  The cleanup of the preview revokes the preview URL, when there
    is one, and stops every track of the stream the ref holds, in order;
    it never tells the recorder to stop. *)
Theorem recordingCleanup_releases (env : Env) (s : State) :
  let tr := snd (run env [] (App.recordingCleanup s)) in
  revokedUrls tr
  = match whenTruthy (recordingUrl s) with
    | Some u => [u]
    | None => []
    end
  /\ stoppedTracks tr
     = match streamRef s with
       | Some stream => tracks stream
       | None => []
       end
  /\ stopsRecorder tr = false.
Proof.
  assert (Hrevoked : forall ts past,
             revokedUrls (snd (run env past (stopTracks ts))) = revokedUrls past).
  { induction ts as [|t ts IH]; intro past; simpl; [reflexivity|].
    rewrite IH, revokedUrls_app. simpl. apply app_nil_r. }
  unfold App.recordingCleanup, revokeIfSet.
  destruct (whenTruthy (recordingUrl s)) as [u|];
    destruct (streamRef s) as [stream|]; simpl;
    try (match goal with
         | |- context [run env ?p (stopTracks ?ts)] =>
             destruct (run_stopTracks env ts p) as [Htracks Hstop];
             rewrite Htracks, Hstop, (Hrevoked ts p)
         end);
    repeat split.
Qed.
